(** * Mini-Shell: the command evaluator of src/cmd.c

    A shallow embedding of [parse_command], [parse_simple], [shell_cd],
    [shell_exit], [run_in_parallel] and [run_on_pipe].

    Processes are modelled by a per-process record [proc] (pid, working
    directory, environment, descriptor table) and a [world] shared by all
    processes (directories, files, open-file ids, the pid counter and a
    trace of system calls).
    A computation of type [M A] either returns a value or terminates the
    current process with an [outcome].  [fork] runs the child to completion
    from a copy of the parent's [proc] and the shared world, then records
    its outcome in the parent's [children] for [waitpid]; the parent
    continues afterwards.  The
    results the kernel decides (whether [fork], [pipe] and [waitpid]
    succeed, and what an executed program does) come from an [os] oracle
    that sees the whole world, the trace included. *)

From Stdlib Require Import ZArith String List Bool.
From stdpp Require Import base gmap strings.

Open Scope Z_scope.
Set Warnings "-register-all".

(** ** Data structures of parser.h *)

Inductive operator :=
| OP_NONE
| OP_SEQUENTIAL
| OP_PARALLEL
| OP_CONDITIONAL_NZERO
| OP_CONDITIONAL_ZERO
| OP_PIPE
| OP_DUMMY.

(** [word_t]: a fragment [string] (a variable name when [expand] is set)
    followed by the remaining fragments [next_part]. *)
Inductive word_t :=
| mk_word (w_string : String.string) (w_expand : bool) (w_next_part : option word_t).

Definition w_string (w : word_t) : String.string :=
  match w with mk_word s _ _ => s end.

Definition w_next_part (w : word_t) : option word_t :=
  match w with mk_word _ _ n => n end.

(** [simple_command_t]; the [next_word] chain of [params] is a list. *)
Record simple_command_t := mk_simple {
  s_verb : option word_t;
  s_params : list word_t;
  s_in : option word_t;
  s_out : option word_t;
  s_err : option word_t;
  s_io_flags : Z
}.

(** [command_t]: null pointers are [None]. *)
Inductive command_t :=
| mk_command (op : operator) (scmd : option simple_command_t)
             (cmd1 cmd2 : option command_t).

(** Flag values of parser.h and of Linux <fcntl.h>/<stdlib.h>. *)
Definition IO_OUT_APPEND : Z := 1.
Definition IO_ERR_APPEND : Z := 2.
Definition O_RDONLY : Z := 0.
Definition O_WRONLY : Z := 1.
Definition O_CREAT : Z := 64.
Definition O_TRUNC : Z := 512.
Definition O_APPEND : Z := 1024.
Definition STDIN_FILENO : Z := 0.
Definition STDOUT_FILENO : Z := 1.
Definition STDERR_FILENO : Z := 2.
Definition EXIT_SUCCESS : Z := 0.
Definition EXIT_FAILURE : Z := 1.
(** Sentinel of utils.h returned for an unknown operator. *)
Definition SHELL_EXIT : Z := -100.

(** ** Processes and the shared world *)

(** Open file descriptions; [id] tells apart two opens of one path. *)
Inductive ofile :=
| OTty
| OFile (path : String.string) (flags : Z) (id : nat)
| OPipeR (id : nat)
| OPipeW (id : nat).

Inductive outcome :=
| Exited (code : Z)
| Signaled (signo : Z).

Record proc := mk_proc {
  pid : Z;
  cwd : String.string;
  env : gmap String.string String.string;
  fds : gmap Z ofile;
  (** terminated children not yet waited for, with how they ended *)
  children : list (Z * outcome)
}.

Inductive event :=
| EOpen (p : Z) (path : String.string) (flags : Z) (fd : Z)
| EChdir (p : Z) (path : String.string)
| EFork (parent child : Z)
| EExec (p : Z) (prog : String.string) (argv : list String.string)
        (table : gmap Z ofile)
| EWrite (p : Z) (dest : option ofile) (msg : String.string)
| EExit (p : Z) (code : Z).

Record world := mk_world {
  dirs : gset String.string;
  files : gset String.string;
  next_id : nat;
  next_pid : positive;
  trace : list event
}.

(** What the kernel decides. *)
Record os := mk_os {
  os_fork_ok : world -> bool;
  os_pipe_ok : world -> bool;
  os_wait_ok : world -> Z -> bool;
  (** [None]: the image cannot be loaded (execvp fails). *)
  os_exec : world -> proc -> String.string -> list String.string -> option outcome
}.

(** ** The process monad *)

Inductive res (A : Type) :=
| Ret (a : A)
| Term (o : outcome).
Arguments Ret {A} a.
Arguments Term {A} o.

Definition M (A : Type) : Type := proc -> world -> res A * proc * world.

Definition ret {A} (a : A) : M A := fun p w => (Ret a, p, w).

Definition bind {A B} (m : M A) (f : A -> M B) : M B :=
  fun p w =>
    match m p w with
    | (Ret a, p', w') => f a p' w'
    | (Term o, p', w') => (Term o, p', w')
    end.

Declare Scope shell_scope.
Delimit Scope shell_scope with shell.
Notation "x <- m ;; k" := (bind m (fun x => k))
  (at level 100, m at next level, k at level 200, right associativity) : shell_scope.
Open Scope shell_scope.

Definition get_proc : M proc := fun p w => (Ret p, p, w).
Definition get_world : M world := fun p w => (Ret w, p, w).
Definition put_proc (p' : proc) : M unit := fun _ w => (Ret tt, p', w).
Definition put_world (w' : world) : M unit := fun p _ => (Ret tt, p, w').

Definition set_fds (t : gmap Z ofile) (p : proc) : proc :=
  mk_proc (pid p) (cwd p) (env p) t (children p).
Definition set_cwd (d : String.string) (p : proc) : proc :=
  mk_proc (pid p) d (env p) (fds p) (children p).
Definition set_env (e : gmap String.string String.string) (p : proc) : proc :=
  mk_proc (pid p) (cwd p) e (fds p) (children p).

Definition log (e : event) (w : world) : world :=
  mk_world (dirs w) (files w) (next_id w) (next_pid w) (trace w ++ [e]).

(** ** System calls *)

Section Syscalls.

Variable sys : os.

(** The components of a path, split at every [/] (empty components
    included). *)
Fixpoint split_path (s : String.string) : list String.string :=
  match s with
  | EmptyString => [EmptyString]
  | String c s' =>
      match split_path s' with
      | [] => []
      | x :: xs =>
          if Ascii.eqb c (Ascii.ascii_of_nat 47) then EmptyString :: x :: xs else String c x :: xs
      end
  end.

(** One component of path lookup on the stack of directories entered:
    empty components and [.] stay, [..] goes up (and stays at the root). *)
Definition path_step (st : list String.string) (c : String.string) : list String.string :=
  if String.eqb c EmptyString || String.eqb c "." then st
  else if String.eqb c ".." then tl st
  else c :: st.

Definition join_path (st : list String.string) : String.string :=
  match st with
  | [] => "/"
  | _ => String.concat EmptyString (map (fun c => ("/" ++ c)%string) (rev st))
  end.

(** The canonical absolute path an absolute path names. *)
Definition normalize (s : String.string) : String.string :=
  join_path (fold_left path_step (split_path s) []).

(** Path resolution against the working directory, as the kernel looks a
    path up (without symbolic links); the empty string names nothing. *)
Definition resolve (dir path : String.string) : String.string :=
  if String.eqb path EmptyString then EmptyString
  else normalize (if String.prefix "/" path then path else (dir ++ "/" ++ path)%string).

(** The directory containing a canonical path. *)
Definition parent_dir (r : String.string) : String.string :=
  normalize (r ++ "/..")%string.

Fixpoint ends_in_slash (s : String.string) : bool :=
  match s with
  | EmptyString => false
  | String c EmptyString => Ascii.eqb c (Ascii.ascii_of_nat 47)
  | String _ s' => ends_in_slash s'
  end.

(** The lowest descriptor not in use, as open/pipe allocate it. *)
Fixpoint free_from (t : gmap Z ofile) (k : nat) (n : Z) : Z :=
  match k with
  | O => n
  | S k' => match t !! n with Some _ => free_from t k' (n + 1) | None => n end
  end.

Definition lowest_free (t : gmap Z ofile) : Z := free_from t (S (size t)) 0.

(** A path that open(2) with [O_CREAT] can open for writing from the
    directory [dir]: a non-empty path, not ending in [/], that is not a
    directory and whose parent directory exists (else EISDIR, ENOENT or
    ENOTDIR). *)
Definition creatable (dir path : String.string) (ds : gset String.string) : bool :=
  let r := resolve dir path in
  negb (String.eqb r EmptyString) && negb (ends_in_slash path) &&
  negb (bool_decide (r ∈ ds)) && bool_decide (parent_dir r ∈ ds).

(** open(2): without [O_CREAT] the file must exist; with it a path is
    created (or truncated) when [creatable]. *)
Definition sys_open (path : String.string) (flags : Z) : M Z :=
  fun p w =>
    let r := resolve (cwd p) path in
    let ok :=
      if Z.testbit flags 6 then creatable (cwd p) path (dirs w)
      else bool_decide (r ∈ files w) in
    if ok then
      let fd := lowest_free (fds p) in
      let w1 := mk_world (dirs w) ({[r]} ∪ files w) (S (next_id w)) (next_pid w)
                         (trace w) in
      (Ret fd, set_fds (<[fd := OFile r flags (next_id w)]> (fds p)) p,
       log (EOpen (pid p) r flags fd) w1)
    else (Ret (-1), p, log (EOpen (pid p) r flags (-1)) w).

(** close(2) and dup2(2) reject a negative descriptor (EBADF). *)
Definition sys_close (fd : Z) : M Z :=
  fun p w =>
    if fd <? 0 then (Ret (-1), p, w) else
    match fds p !! fd with
    | Some _ => (Ret 0, set_fds (delete fd (fds p)) p, w)
    | None => (Ret (-1), p, w)
    end.

Definition sys_dup2 (oldfd newfd : Z) : M Z :=
  fun p w =>
    if (oldfd <? 0) || (newfd <? 0) then (Ret (-1), p, w) else
    match fds p !! oldfd with
    | None => (Ret (-1), p, w)
    | Some f =>
        if oldfd =? newfd then (Ret newfd, p, w)
        else (Ret newfd, set_fds (<[newfd := f]> (fds p)) p, w)
    end.

(** chdir(2); a NULL argument (getenv of an unset variable) fails. *)
Definition sys_chdir (path : option String.string) : M Z :=
  fun p w =>
    match path with
    | None => (Ret (-1), p, w)
    | Some s =>
        let r := resolve (cwd p) s in
        if bool_decide (r ∈ dirs w)
        then (Ret 0, set_cwd r p, log (EChdir (pid p) r) w)
        else (Ret (-1), p, w)
    end.

Definition getenv (name : String.string) : M (option String.string) :=
  fun p w => (Ret (env p !! name), p, w).

(** setenv(3) refuses an empty name and a name containing [=] (EINVAL). *)
Definition setenv (name value : String.string) : M Z :=
  fun p w =>
    if String.eqb name EmptyString ||
       match String.index 0 "=" name with Some _ => true | None => false end
    then (Ret (-1), p, w)
    else (Ret 0, set_env (<[name := value]> (env p)) p, w).

(** exit(3): the low byte of the argument is the exit code. *)
Definition sys_exit {A} (code : Z) : M A :=
  fun p w => (Term (Exited (Z.land code 255)), p,
              log (EExit (pid p) (Z.land code 255)) w).

(** Dereferencing a NULL pointer. *)
Definition segfault {A} : M A :=
  fun p w => (Term (Signaled 11), p, w).

(** execvp(3): on success the image is replaced and the process ends as
    the program decides; on failure -1 is returned. *)
Definition sys_execvp (prog : String.string) (argv : list String.string) : M Z :=
  fun p w =>
    match os_exec sys w p prog argv with
    | None => (Ret (-1), p, w)
    | Some o => (Term o, p, log (EExec (pid p) prog argv (fds p)) w)
    end.

(** fprintf(stderr, ...). *)
Definition fprintf_stderr (msg : String.string) : M unit :=
  fun p w => (Ret tt, p, log (EWrite (pid p) (fds p !! STDERR_FILENO) msg) w).

(** The child of fork(2): it runs [child] from a copy of the parent's
    process record (without the parent's children) and the shared world;
    it always ends in exit or exec, and a child that would return is taken
    to exit with that value.  Gives the child's pid, how it ended and the
    world it leaves. *)
Definition spawn (child : M Z) (p : proc) (w : world) : Z * outcome * world :=
  let cpid := Zpos (next_pid w) in
  let w1 := log (EFork (pid p) cpid)
              (mk_world (dirs w) (files w) (next_id w) (Pos.succ (next_pid w)) (trace w)) in
  let '(r, _, w2) := child (mk_proc cpid (cwd p) (env p) (fds p) []) w1 in
  let o := match r with Term o => o | Ret rc => Exited (Z.land rc 255) end in
  (cpid, o, w2).

Definition add_child (cpid : Z) (o : outcome) (p : proc) : proc :=
  mk_proc (pid p) (cwd p) (env p) (fds p) ((cpid, o) :: children p).

Definition reap (cpid : Z) (p : proc) : proc :=
  mk_proc (pid p) (cwd p) (env p) (fds p)
          (List.filter (fun z => negb (fst z =? cpid)) (children p)).

(** fork(2): the parent gets the child's pid, or -1 when the kernel
    refuses. *)
Definition sys_fork (child : M Z) : M Z :=
  fun p w =>
    if os_fork_ok sys w then
      let '(cpid, o, w2) := spawn child p w in
      (Ret cpid, add_child cpid o p, w2)
    else (Ret (-1), p, w).

(** The status word of wait(2) on Linux. *)
Definition wait_status (o : outcome) : Z :=
  match o with
  | Exited c => Z.land c 255 * 256
  | Signaled s => Z.land s 127
  end.

Definition WIFEXITED (status : Z) : bool := Z.land status 127 =? 0.
Definition WEXITSTATUS (status : Z) : Z := Z.land (Z.shiftr status 8) 255.

(** waitpid(pid, &status, 0): returns (rc, status); it fails for a pid
    that is not a child of the caller. *)
Definition sys_waitpid (cpid : Z) : M (Z * Z) :=
  fun p w =>
    match find (fun z => fst z =? cpid) (children p) with
    | Some (_, o) =>
        if os_wait_ok sys w cpid
        then (Ret (cpid, wait_status o), reap cpid p, w)
        else (Ret (-1, 0), p, w)
    | None => (Ret (-1, 0), p, w)
    end.

(** pipe(2): returns (rc, (read end, write end)). *)
Definition sys_pipe : M (Z * (Z * Z)) :=
  fun p w =>
    if os_pipe_ok sys w then
      let i := next_id w in
      let r := lowest_free (fds p) in
      let t1 := <[r := OPipeR i]> (fds p) in
      let wr := lowest_free t1 in
      (Ret (0, (r, wr)), set_fds (<[wr := OPipeW i]> t1) p,
       mk_world (dirs w) (files w) (S i) (next_pid w) (trace w))
    else (Ret (-1, (0, 0)), p, w).

End Syscalls.

(** ** Word resolution (utils.c) *)

(** Modelled from the spec: [get_word] of utils.c, which is not under src/.
    The Word Resolver concatenates the fragments, a fragment flagged
    [expand] standing for the value of the variable it names (the empty
    string when unset). *)
Fixpoint get_word (e : gmap String.string String.string) (w : word_t) : String.string :=
  match w with
  | mk_word s x n =>
      ((if x then default EmptyString (e !! s) else s) ++
       match n with Some w' => get_word e w' | None => EmptyString end)%string
  end.

(** Modelled from the spec: [get_argv] of utils.c, which is not under src/:
    the resolved verb followed by the resolved params (the terminating
    NULL is implicit in the list). *)
Definition get_argv (e : gmap String.string String.string) (verb : word_t)
    (params : list word_t) : list String.string :=
  get_word e verb :: map (get_word e) params.

Definition get_word_opt (e : gmap String.string String.string) (w : option word_t) : String.string :=
  match w with Some w => get_word e w | None => EmptyString end.

Definition cur_env : M (gmap String.string String.string) :=
  p <- get_proc ;; ret (env p).

(** ** cmd.c *)

Section Shell.

Variable sys : os.

(** [shell_cd] (lines 23-38); [dir] is the first parameter. *)
Definition shell_cd (dir : option word_t) : M bool :=
  let home_case :=
    match dir with
    | None => true
    | Some d => String.eqb (w_string d) "~" || String.eqb (w_string d) EmptyString
    end in
  r1 <- (if home_case
         then h <- getenv "HOME" ;; rc <- sys_chdir h ;; ret (rc =? -1)
         else ret false) ;;
  if r1 then ret false else
  match dir with
  | None => segfault            (* strcmp(dir->string, "-") with dir NULL *)
  | Some d =>
      r2 <- (if String.eqb (w_string d) "-"
             then o <- getenv "OLDPWD" ;; rc <- sys_chdir o ;; ret (rc =? -1)
             else ret false) ;;
      if r2 then ret false else
      rc <- sys_chdir (Some (w_string d)) ;;
      if rc =? -1 then ret false else ret true
  end.

(** [shell_exit] (lines 43-49). *)
Definition shell_exit : M Z := sys_exit EXIT_SUCCESS.

(** Lines 68-82: the redirections of the [cd] builtin. *)
Definition cd_redirections (s : simple_command_t) : M unit :=
  _ <- match s_in s with
       | Some i => fd <- sys_open (w_string i) O_RDONLY ;; sys_close fd
       | None => ret 0
       end ;;
  _ <- match s_out s with
       | Some o => fd <- sys_open (w_string o) (Z.lor (Z.lor O_WRONLY O_CREAT) O_TRUNC) ;;
                   sys_close fd
       | None => ret 0
       end ;;
  _ <- match s_err s with
       | Some e => fd <- sys_open (w_string e) (Z.lor (Z.lor O_WRONLY O_CREAT) O_TRUNC) ;;
                   _ <- sys_dup2 fd STDERR_FILENO ;;
                   sys_close fd
       | None => ret 0
       end ;;
  ret tt.

(** Open mode of an output redirection (lines 119-122 and 128-131). *)
Definition out_flags (append : bool) : Z :=
  if append then Z.lor (Z.lor O_WRONLY O_CREAT) O_APPEND
  else Z.lor (Z.lor O_WRONLY O_CREAT) O_TRUNC.

(** Lines 112-141: the redirections in the child of an external command. *)
Definition child_redirections (s : simple_command_t) : M Z :=
  _ <- match s_in s with
       | Some i => e <- cur_env ;; fd <- sys_open (get_word e i) O_RDONLY ;;
                   _ <- sys_dup2 fd STDIN_FILENO ;; sys_close fd
       | None => ret 0
       end ;;
  _ <- match s_out s with
       | Some o => e <- cur_env ;;
                   fd <- sys_open (get_word e o)
                           (out_flags (negb (Z.land (s_io_flags s) IO_OUT_APPEND =? 0))) ;;
                   _ <- sys_dup2 fd STDOUT_FILENO ;; sys_close fd
       | None => ret 0
       end ;;
  _ <- match s_err s with
       | Some r => e <- cur_env ;;
                   fd <- sys_open (get_word e r)
                           (out_flags (negb (Z.land (s_io_flags s) IO_ERR_APPEND =? 0))) ;;
                   _ <- sys_dup2 fd STDERR_FILENO ;; sys_close fd
       | None => ret 0
       end ;;
  _ <- match s_out s, s_err s with
       | Some o, Some r =>
           if String.eqb (w_string o) (w_string r) then
             e <- cur_env ;;
             fd <- sys_open (get_word e o) (Z.lor (Z.lor O_WRONLY O_CREAT) O_TRUNC) ;;
             _ <- sys_dup2 fd STDOUT_FILENO ;;
             _ <- sys_dup2 fd STDERR_FILENO ;;
             sys_close fd
           else ret 0
       | _, _ => ret 0
       end ;;
  ret 0.

(** Lines 112-147: the child of an external command. *)
Definition exec_child (s : simple_command_t) (verb : word_t) : M Z :=
  _ <- child_redirections s ;;
  e <- cur_env ;;
  rc <- sys_execvp sys (w_string verb) (get_argv e verb (s_params s)) ;;
  if rc =? -1 then
    _ <- fprintf_stderr ("Execution failed for '" ++ w_string verb ++ "'" ++
                         String (Ascii.ascii_of_nat 10) EmptyString)%string ;;
    sys_exit EXIT_FAILURE
  else ret rc.

(** [parse_simple] (lines 55-160); [level] and [father] are never read. *)
Definition parse_simple (sc : option simple_command_t) : M Z :=
  match sc with
  | None => ret 0
  | Some s =>
  match s_verb s with
  | None => ret 0
  | Some verb =>
  if String.eqb (w_string verb) "cd" then
    _ <- cd_redirections s ;;
    b <- shell_cd (head (s_params s)) ;;
    ret (if b then 0 else 1)
  else if String.eqb (w_string verb) "exit" || String.eqb (w_string verb) "quit" then
    shell_exit
  else
  let assign :=
    match w_next_part verb with
    | Some n => if String.eqb (w_string n) "=" then Some n else None
    | None => None
    end in
  match assign with
  | Some n =>
      e <- cur_env ;; setenv (w_string verb) (get_word_opt e (w_next_part n))
  | None =>
      cpid <- sys_fork sys (exec_child s verb) ;;
      if cpid =? -1 then ret (-1) else
      r <- sys_waitpid sys cpid ;;
      let '(rc, status) := r in
      if rc =? -1 then ret (-1)
      else if WIFEXITED status then ret status
      else ret 0
  end
  end
  end.

(** A child of [run_in_parallel] (lines 178-179 and 188-189). *)
Definition parallel_child (m : M Z) : M Z :=
  rc <- m ;; sys_exit rc.

(** [run_in_parallel] (lines 165-203); [m1] and [m2] evaluate [cmd1] and
    [cmd2]. *)
Definition run_in_parallel (m1 m2 : M Z) : M bool :=
  pid1 <- sys_fork sys (parallel_child m1) ;;
  if pid1 =? -1 then ret false else
  pid2 <- sys_fork sys (parallel_child m2) ;;
  if pid2 =? -1 then ret false else
  r1 <- sys_waitpid sys pid1 ;;
  if fst r1 =? -1 then ret false else
  r2 <- sys_waitpid sys pid2 ;;
  if fst r2 =? -1 then ret false else
  ret (negb (snd r1 =? 0) && negb (snd r2 =? 0)).

(** The writing child of [run_on_pipe] (lines 226-230). *)
Definition pipe_writer (fd0 fd1 : Z) (m : M Z) : M Z :=
  _ <- sys_close fd0 ;; _ <- sys_dup2 fd1 STDOUT_FILENO ;;
  _ <- sys_close fd1 ;; rc <- m ;; sys_exit rc.

(** The reading child of [run_on_pipe] (lines 240-243). *)
Definition pipe_reader (fd0 : Z) (m : M Z) : M Z :=
  _ <- sys_dup2 fd0 STDIN_FILENO ;; _ <- sys_close fd0 ;;
  rc <- m ;; sys_exit rc.

(** [run_on_pipe] (lines 208-258); [return status2] converts the status
    to the [bool] result. *)
Definition run_on_pipe (m1 m2 : M Z) : M bool :=
  r <- sys_pipe sys ;;
  let '(rc, (fd0, fd1)) := r in
  if rc =? -1 then ret false else
  pid1 <- sys_fork sys (pipe_writer fd0 fd1 m1) ;;
  if pid1 =? -1 then ret false else
  _ <- sys_close fd1 ;;
  pid2 <- sys_fork sys (pipe_reader fd0 m2) ;;
  if pid2 =? -1 then ret false else
  _ <- sys_close fd0 ;;
  r1 <- sys_waitpid sys pid1 ;;
  if fst r1 =? -1 then ret false else
  r2 <- sys_waitpid sys pid2 ;;
  if fst r2 =? -1 then ret false else
  ret (negb (snd r2 =? 0)).

(** [parse_command] (lines 263-316); [level] and [father] only travel
    down the recursion and are left out.  [sub] is the recursive call on
    a child pointer, 0 for NULL as in the sanity check of line 266. *)
Fixpoint parse_command_t (c : command_t) : M Z :=
  match c with
  | mk_command op scmd c1 c2 =>
      let sub (o : option command_t) : M Z :=
        match o with None => ret 0 | Some c' => parse_command_t c' end in
      match op with
      | OP_NONE => parse_simple scmd
      | OP_SEQUENTIAL =>
          rc1 <- sub c1 ;;
          rc2 <- sub c2 ;;
          ret (Z.land rc1 rc2)
      | OP_PARALLEL =>
          b <- run_in_parallel (sub c1) (sub c2) ;;
          ret (Z.b2z b)
      | OP_CONDITIONAL_NZERO =>
          rc <- sub c1 ;;
          if negb (rc =? 0) then sub c2 else ret rc
      | OP_CONDITIONAL_ZERO =>
          rc <- sub c1 ;;
          if rc =? 0 then sub c2 else ret rc
      | OP_PIPE =>
          b <- run_on_pipe (sub c1) (sub c2) ;;
          ret (Z.b2z b)
      | OP_DUMMY => ret SHELL_EXIT
      end
  end.

Definition parse_command (c : option command_t) : M Z :=
  match c with None => ret 0 | Some c' => parse_command_t c' end.

End Shell.

(** ** Observations on a trace *)

Definition newline : String.string := String (Ascii.ascii_of_nat 10) EmptyString.

(** The programs executed, with the executing pid. *)
Definition execs (tr : list event) : list (Z * String.string) :=
  flat_map (fun e => match e with EExec q prog _ _ => [(q, prog)] | _ => [] end) tr.


(** ** Concrete inputs *)

Definition lit (s : String.string) : word_t := mk_word s false None.

Definition simple (verb : String.string) (params : list String.string) : simple_command_t :=
  mk_simple (Some (lit verb)) (map lit params) None None None 0.

Definition leaf (s : simple_command_t) : command_t :=
  mk_command OP_NONE (Some s) None None.

Definition node (op : operator) (c1 c2 : command_t) : command_t :=
  mk_command op None (Some c1) (Some c2).

(** A kernel where every call succeeds; [true] exits with 0, [false] with
    1, [sleep] is killed by SIGKILL, every other name fails to load. *)
Definition demo_exec (prog : String.string) : option outcome :=
  if String.eqb prog "true" then Some (Exited 0)
  else if String.eqb prog "false" then Some (Exited 1)
  else if String.eqb prog "sleep" then Some (Signaled 9)
  else None.

Definition os_demo : os :=
  mk_os (fun _ => true) (fun _ => true) (fun _ _ => true)
        (fun _ _ prog _ => demo_exec prog).

Definition std_fds : gmap Z ofile :=
  <[0 := OTty]> (<[1 := OTty]> (<[2 := OTty]> ∅)).

Definition p0 : proc :=
  mk_proc 1 "/" (<["HOME" := "/home"]> (<["OLDPWD" := "/old"]> ∅)) std_fds [].

Definition w0 : world :=
  mk_world (list_to_set ["/"; "/home"; "/old"; "/a"; "/b"]) ∅ 0 100%positive [].





(** [true > f 2> f]. *)
Definition true_merged : simple_command_t :=
  mk_simple (Some (lit "true")) [] None (Some (lit "f")) (Some (lit "f")) 0.

(** [(exit & true); true]. *)
Definition exit_in_parallel : command_t :=
  node OP_SEQUENTIAL (node OP_PARALLEL (leaf (simple "exit" [])) (leaf (simple "true" [])))
       (leaf (simple "true" [])).

(** [true | true]. *)
Definition pipe_true_true : command_t :=
  node OP_PIPE (leaf (simple "true" [])) (leaf (simple "true" [])).

(** A kernel as [os_demo] where waiting for pid 103 fails. *)
Definition os_wait_103_fails : os :=
  mk_os (fun _ => true) (fun _ => true) (fun _ cpid => negb (Z.eqb cpid 103))
        (fun _ _ prog _ => demo_exec prog).


(** [X=v]. *)
Definition assign_x : word_t := mk_word "X" false (Some (mk_word "=" false (Some (lit "v")))).

(** ** Proofs *)

Section Proofs.

Variable sys : os.

(** *** Properties of computations *)

(** Pids only grow. *)
Definition pid_mono {A} (m : M A) : Prop :=
  forall p w, (next_pid w <= next_pid (snd (m p w)))%positive.

(** Computations that never end the process. *)
Definition no_term {A} (m : M A) : Prop :=
  forall p w, exists a p' w', m p w = (Ret a, p', w') /\ pid p' = pid p.



(** Computations that keep the working directory and the environment. *)
Definition keeps_cwd_env {A} (m : M A) : Prop :=
  forall p w, let '(_, p', w') := m p w in
  cwd p' = cwd p /\ env p' = env p /\ dirs w' = dirs w.

(** Computations that keep the part [f] of the process record they run in. *)
Definition keeps_view {X A} (f : proc -> X) (m : M A) : Prop :=
  forall p w, f (snd (fst (m p w))) = f p.


(** Evaluating a child pointer inside [parse_command_t] is [parse_command]. *)
Lemma parse_command_some c : parse_command sys (Some c) = parse_command_t sys c.
Proof. reflexivity. Qed.

(** Shared by the claims on sequencing: the equation of a SEQUENTIAL node. *)
Lemma sequential_eq sc c1 c2 p w :
  parse_command_t sys (mk_command OP_SEQUENTIAL sc c1 c2) p w =
  match parse_command sys c1 p w with
  | (Ret r1, p1, w1) =>
      match parse_command sys c2 p1 w1 with
      | (Ret r2, p2, w2) => (Ret (Z.land r1 r2), p2, w2)
      | (Term o, p2, w2) => (Term o, p2, w2)
      end
  | (Term o, p1, w1) => (Term o, p1, w1)
  end.
Proof.
  simpl. unfold bind. destruct c1 as [c1|], c2 as [c2|]; simpl;
  repeat match goal with |- context [match ?x with _ => _ end] =>
    lazymatch x with (_, _) => fail | _ => destruct x as [[[] ?] ?] end end;
  reflexivity.
Qed.

(** *** Pids only grow *)

Lemma pid_mono_ret {A} (a : A) : pid_mono (ret a).
Proof. intros p w. simpl. lia. Qed.

Lemma pid_mono_bind {A B} (m : M A) (f : A -> M B) :
  pid_mono m -> (forall a, pid_mono (f a)) -> pid_mono (bind m f).
Proof.
  intros Hm Hf p w. unfold bind. specialize (Hm p w).
  destruct (m p w) as [[r p'] w'] eqn:E. simpl in Hm.
  destruct r as [a|o]; simpl; [specialize (Hf a p' w'); lia | lia].
Qed.

Ltac unfold_prims :=
  unfold sys_open, sys_close, sys_dup2, sys_chdir, getenv, setenv, sys_exit,
    segfault, sys_execvp, fprintf_stderr, sys_waitpid, sys_pipe, cur_env,
    get_proc, bind, ret, log in *.

Ltac prim_mono :=
  intros ?p ?w; unfold_prims; cbn -[lowest_free];
  repeat match goal with
         | |- context [match ?x with _ => _ end] => destruct x eqn:?
         end; simpl; lia.

Lemma pid_mono_open path flags : pid_mono (sys_open path flags).
Proof. prim_mono. Qed.
Lemma pid_mono_close fd : pid_mono (sys_close fd).
Proof. prim_mono. Qed.
Lemma pid_mono_dup2 a b : pid_mono (sys_dup2 a b).
Proof. prim_mono. Qed.
Lemma pid_mono_chdir d : pid_mono (sys_chdir d).
Proof. prim_mono. Qed.
Lemma pid_mono_getenv n : pid_mono (getenv n).
Proof. prim_mono. Qed.
Lemma pid_mono_setenv n v : pid_mono (setenv n v).
Proof. prim_mono. Qed.
Lemma pid_mono_exit {A} c : pid_mono (@sys_exit A c).
Proof. prim_mono. Qed.
Lemma pid_mono_segfault {A} : pid_mono (@segfault A).
Proof. prim_mono. Qed.
Lemma pid_mono_execvp prog argv : pid_mono (sys_execvp sys prog argv).
Proof. prim_mono. Qed.
Lemma pid_mono_fprintf msg : pid_mono (fprintf_stderr msg).
Proof. prim_mono. Qed.
Lemma pid_mono_waitpid c : pid_mono (sys_waitpid sys c).
Proof. prim_mono. Qed.
Lemma pid_mono_pipe : pid_mono (sys_pipe sys).
Proof. prim_mono. Qed.
Lemma pid_mono_cur_env : pid_mono cur_env.
Proof. prim_mono. Qed.

Lemma pid_mono_fork child : pid_mono child -> pid_mono (sys_fork sys child).
Proof.
  intros Hc p w. unfold sys_fork, spawn.
  destruct (os_fork_ok sys w); [|simpl; lia].
  match goal with |- context [child ?q ?v] =>
    specialize (Hc q v); destruct (child q v) as [[r p'] w'] end.
  simpl in *. lia.
Qed.

Create HintDb pid_mono.
#[local] Hint Resolve pid_mono_ret pid_mono_open pid_mono_close pid_mono_dup2
  pid_mono_chdir pid_mono_getenv pid_mono_setenv pid_mono_exit pid_mono_segfault
  pid_mono_execvp pid_mono_fprintf pid_mono_waitpid pid_mono_pipe
  pid_mono_cur_env pid_mono_fork : pid_mono.

Ltac mono_tac :=
  repeat ((apply pid_mono_bind; [|intros ?]) || apply pid_mono_fork ||
          match goal with
          | |- pid_mono (match ?x with _ => _ end) => destruct x
          end);
  eauto with pid_mono.

Lemma pid_mono_shell_cd d : pid_mono (shell_cd d).
Proof. unfold shell_cd. mono_tac. Qed.
#[local] Hint Resolve pid_mono_shell_cd : pid_mono.

Lemma pid_mono_parse_simple sc : pid_mono (parse_simple sys sc).
Proof.
  unfold parse_simple, cd_redirections, shell_exit, exec_child, child_redirections.
  mono_tac.
Qed.

Lemma pid_mono_parallel_child m : pid_mono m -> pid_mono (parallel_child m).
Proof. intros. unfold parallel_child. mono_tac. Qed.

Lemma pid_mono_pipe_writer fd0 fd1 m : pid_mono m -> pid_mono (pipe_writer fd0 fd1 m).
Proof. intros. unfold pipe_writer. mono_tac. Qed.

Lemma pid_mono_pipe_reader fd0 m : pid_mono m -> pid_mono (pipe_reader fd0 m).
Proof. intros. unfold pipe_reader. mono_tac. Qed.

Lemma pid_mono_parallel m1 m2 :
  pid_mono m1 -> pid_mono m2 -> pid_mono (run_in_parallel sys m1 m2).
Proof.
  intros. unfold run_in_parallel. mono_tac; apply pid_mono_parallel_child; assumption.
Qed.

Lemma pid_mono_pipe_run m1 m2 :
  pid_mono m1 -> pid_mono m2 -> pid_mono (run_on_pipe sys m1 m2).
Proof.
  intros. unfold run_on_pipe. mono_tac;
    first [apply pid_mono_pipe_writer | apply pid_mono_pipe_reader]; assumption.
Qed.

Lemma pid_mono_parse_command_t c : pid_mono (parse_command_t sys c).
Proof.
  revert c. fix IH 1. intros [op sc c1 c2].
  assert (H1 : pid_mono (parse_command sys c1))
    by (destruct c1 as [c1|]; [apply IH | apply pid_mono_ret]).
  assert (H2 : pid_mono (parse_command sys c2))
    by (destruct c2 as [c2|]; [apply IH | apply pid_mono_ret]).
  destruct op; simpl.
  - apply pid_mono_parse_simple.
  - apply pid_mono_bind; [assumption | intros; apply pid_mono_bind; [assumption | intros; apply pid_mono_ret]].
  - apply pid_mono_bind; [apply pid_mono_parallel; assumption | intros; apply pid_mono_ret].
  - apply pid_mono_bind; [assumption | intros a; destruct (negb (a =? 0)); [assumption | apply pid_mono_ret]].
  - apply pid_mono_bind; [assumption | intros a; destruct (a =? 0); [assumption | apply pid_mono_ret]].
  - apply pid_mono_bind; [apply pid_mono_pipe_run; assumption | intros; apply pid_mono_ret].
  - apply pid_mono_ret.
Qed.

Lemma pid_mono_parse_command c : pid_mono (parse_command sys c).
Proof. destruct c; [apply pid_mono_parse_command_t | apply pid_mono_ret]. Qed.

(** *** fork and waitpid *)

Lemma spawn_pid child p w :
  pid_mono child ->
  let '(cpid, _, w') := spawn child p w in
  cpid = Zpos (next_pid w) /\ (next_pid w < next_pid w')%positive.
Proof.
  intros Hc. unfold spawn.
  match goal with |- context [child ?q ?v] =>
    specialize (Hc q v); destruct (child q v) as [[r p'] w'] end.
  simpl in *. lia.
Qed.

Lemma spawn_children child a b c d e1 e2 w :
  spawn child (mk_proc a b c d e1) w = spawn child (mk_proc a b c d e2) w.
Proof. reflexivity. Qed.


Lemma find_head (pid1 : Z) (o1 : outcome) rest :
  find (fun z => fst z =? pid1) ((pid1, o1) :: rest) = Some (pid1, o1).
Proof. simpl. rewrite Z.eqb_refl. reflexivity. Qed.

Lemma find_skip (pid1 pid2 : Z) (o2 : outcome) rest :
  pid2 <> pid1 ->
  find (fun z => fst z =? pid1) ((pid2, o2) :: rest) =
  find (fun z => fst z =? pid1) rest.
Proof. intros H. simpl. apply Z.eqb_neq in H. rewrite H. reflexivity. Qed.

Lemma bind_fork_ok {B} child (f : Z -> M B) p w cpid o w2 :
  os_fork_ok sys w = true -> spawn child p w = (cpid, o, w2) ->
  bind (sys_fork sys child) f p w = f cpid (add_child cpid o p) w2.
Proof. intros F E. unfold bind, sys_fork. rewrite F, E. reflexivity. Qed.

Lemma bind_fork_fail {B} child (f : Z -> M B) p w :
  os_fork_ok sys w = false -> bind (sys_fork sys child) f p w = f (-1) p w.
Proof. intros F. unfold bind, sys_fork. rewrite F. reflexivity. Qed.

Lemma bind_wait_ok {B} cpid o (f : Z * Z -> M B) p w :
  find (fun z => fst z =? cpid) (children p) = Some (cpid, o) ->
  os_wait_ok sys w cpid = true ->
  bind (sys_waitpid sys cpid) f p w = f (cpid, wait_status o) (reap cpid p) w.
Proof. intros H F. unfold bind, sys_waitpid. rewrite H, F. reflexivity. Qed.

Lemma bind_wait_fail {B} cpid o (f : Z * Z -> M B) p w :
  find (fun z => fst z =? cpid) (children p) = Some (cpid, o) ->
  os_wait_ok sys w cpid = false ->
  bind (sys_waitpid sys cpid) f p w = f (-1, 0) p w.
Proof. intros H F. unfold bind, sys_waitpid. rewrite H, F. reflexivity. Qed.

Ltac step_if := cbn beta; simpl (Z.pos _ =? -1); cbn iota.

(** *** Claims on the operators *)

(** C2: a SEQUENTIAL node evaluates [cmd1] and then, whatever status it
    returned, [cmd2] from the state [cmd1] left; the node's status is the
    bitwise AND of the two (so 2 and 1 give 0).  Only a [cmd1] that ends
    the process stops it. *)
Theorem sequential_bitwise_and sc (c1 c2 : option command_t) (p : proc) (w : world) :
  parse_command_t sys (mk_command OP_SEQUENTIAL sc c1 c2) p w =
  match parse_command sys c1 p w with
  | (Ret r1, p1, w1) =>
      match parse_command sys c2 p1 w1 with
      | (Ret r2, p2, w2) => (Ret (Z.land r1 r2), p2, w2)
      | (Term o, p2, w2) => (Term o, p2, w2)
      end
  | (Term o, p1, w1) => (Term o, p1, w1)
  end /\ Z.land 2 1 = 0.
Proof. split; [apply sequential_eq | reflexivity]. Qed.

(** C7: a COND_NONZERO node evaluates [cmd2] exactly when [cmd1]'s status
    is non-zero and then returns [cmd2]'s result; otherwise it returns
    [cmd1]'s status in the state [cmd1] left, so [cmd2] has no effect.
    A COND_ZERO node does the same when the status is zero. *)
Theorem conditional_short_circuit sc (c1 c2 : option command_t) (p : proc) (w : world) :
  parse_command_t sys (mk_command OP_CONDITIONAL_NZERO sc c1 c2) p w =
  match parse_command sys c1 p w with
  | (Ret r1, p1, w1) =>
      if negb (r1 =? 0) then parse_command sys c2 p1 w1 else (Ret r1, p1, w1)
  | (Term o, p1, w1) => (Term o, p1, w1)
  end /\
  parse_command_t sys (mk_command OP_CONDITIONAL_ZERO sc c1 c2) p w =
  match parse_command sys c1 p w with
  | (Ret r1, p1, w1) =>
      if r1 =? 0 then parse_command sys c2 p1 w1 else (Ret r1, p1, w1)
  | (Term o, p1, w1) => (Term o, p1, w1)
  end.
Proof.
  split; simpl; unfold bind; destruct c1 as [c1|]; simpl;
  try (destruct (parse_command_t sys c1 p w) as [[[r1|o] p1] w1]);
  try (destruct (negb (r1 =? 0))); try (destruct (r1 =? 0));
  try (destruct c2); reflexivity.
Qed.

(** C3: the PARALLEL runner forks a child per subtree and waits for both;
    it returns true exactly when both forks and both waits succeed and
    both children's wait statuses are non-zero (a logical AND of the
    statuses); a failed fork or wait gives false. *)
Theorem parallel_and_of_statuses (c1 c2 : option command_t) (p : proc) (w : world) :
  let '(pid1, o1, w1) := spawn (parallel_child (parse_command sys c1)) p w in
  let '(pid2, o2, w2) := spawn (parallel_child (parse_command sys c2)) p w1 in
  fst (fst (run_in_parallel sys (parse_command sys c1) (parse_command sys c2) p w)) =
  Ret (os_fork_ok sys w && os_fork_ok sys w1 &&
       os_wait_ok sys w2 pid1 && os_wait_ok sys w2 pid2 &&
       negb (wait_status o1 =? 0) && negb (wait_status o2 =? 0)).
Proof.
  pose proof (pid_mono_parallel_child _ (pid_mono_parse_command c1)) as M1.
  pose proof (pid_mono_parallel_child _ (pid_mono_parse_command c2)) as M2.
  pose proof (spawn_pid _ p w M1) as S1.
  destruct (spawn _ p w) as [[pid1 o1] w1] eqn:E1.
  pose proof (spawn_pid _ p w1 M2) as S2.
  destruct (spawn _ p w1) as [[pid2 o2] w2] eqn:E2.
  destruct S1 as [-> L1], S2 as [-> L2].
  unfold run_in_parallel.
  destruct (os_fork_ok sys w) eqn:F1; [|rewrite bind_fork_fail; auto].
  rewrite (bind_fork_ok _ _ _ _ _ _ _ F1 E1). step_if.
  destruct (os_fork_ok sys w1) eqn:F2; [|rewrite bind_fork_fail; auto].
  assert (E2' : spawn (parallel_child (parse_command sys c2))
                  (add_child (Z.pos (next_pid w)) o1 p) w1 = (Z.pos (next_pid w1), o2, w2))
    by (rewrite <- E2; reflexivity).
  rewrite (bind_fork_ok _ _ _ _ _ _ _ F2 E2'). step_if.
  assert (N : Z.pos (next_pid w1) <> Z.pos (next_pid w)) by lia.
  apply Z.eqb_neq in N.
  assert (H1 : find (fun z => fst z =? Z.pos (next_pid w))
                 (children (add_child (Z.pos (next_pid w1)) o2 (add_child (Z.pos (next_pid w)) o1 p)))
               = Some (Z.pos (next_pid w), o1)).
  { unfold add_child; cbn [children find fst]. rewrite N, Z.eqb_refl. reflexivity. }
  destruct (os_wait_ok sys w2 (Z.pos (next_pid w))) eqn:W1;
    [|rewrite (bind_wait_fail _ _ _ _ _ H1 W1); reflexivity].
  rewrite (bind_wait_ok _ _ _ _ _ H1 W1). simpl (fst _). step_if.
  assert (H2 : find (fun z => fst z =? Z.pos (next_pid w1))
                 (children (reap (Z.pos (next_pid w))
                   (add_child (Z.pos (next_pid w1)) o2 (add_child (Z.pos (next_pid w)) o1 p))))
               = Some (Z.pos (next_pid w1), o2)).
  { unfold add_child, reap; cbn [children find fst List.filter].
    rewrite Z.eqb_refl, N. cbn [negb find fst]. rewrite Z.eqb_refl. reflexivity. }
  destruct (os_wait_ok sys w2 (Z.pos (next_pid w1))) eqn:W2;
    [|rewrite (bind_wait_fail _ _ _ _ _ H2 W2); reflexivity].
  rewrite (bind_wait_ok _ _ _ _ _ H2 W2). simpl (fst _). step_if.
  reflexivity.
Qed.

Lemma spawn_cpid child p w :
  let '(cpid, _, _) := spawn child p w in cpid = Zpos (next_pid w).
Proof. unfold spawn. destruct (child _ _) as [[r q] v]. reflexivity. Qed.

(** C1 (code slip): an external command leaf returns the raw wait status
    of its child when the child exited normally (lines 154-155 lack
    WEXITSTATUS), 0 when it was killed by a signal, and -1 when fork or
    waitpid fails.  A child exiting with code 1 has wait status 256, so
    the leaf returns 256 instead of 1. *)
Theorem external_leaf_raw_status (s : simple_command_t) (verb : word_t) (p : proc) (w : world) :
  s_verb s = Some verb ->
  String.eqb (w_string verb) "cd" = false ->
  String.eqb (w_string verb) "exit" = false ->
  String.eqb (w_string verb) "quit" = false ->
  match w_next_part verb with Some n => String.eqb (w_string n) "=" = false | None => True end ->
  (let '(cpid, o, w2) := spawn (exec_child sys s verb) p w in
   fst (fst (parse_simple sys (Some s) p w)) =
   Ret (if os_fork_ok sys w then
          if os_wait_ok sys w2 cpid then
            if WIFEXITED (wait_status o) then wait_status o else 0
          else -1
        else -1)) /\
  wait_status (Exited 1) = 256 /\ WEXITSTATUS (wait_status (Exited 1)) = 1.
Proof.
  intros Hv Hcd Hex Hq Has. split; [|split; reflexivity].
  pose proof (spawn_cpid (exec_child sys s verb) p w) as C.
  destruct (spawn (exec_child sys s verb) p w) as [[cpid o] w2] eqn:S. subst cpid.
  unfold parse_simple. rewrite Hv, Hcd, Hex, Hq. cbn [orb].
  assert (Ha : match w_next_part verb with
               | Some n => if (w_string n =? "=")%string then Some n else None
               | None => None end = None)
    by (destruct (w_next_part verb); [rewrite Has|]; reflexivity).
  rewrite Ha.
  destruct (os_fork_ok sys w) eqn:F; [|rewrite bind_fork_fail by exact F; reflexivity].
  rewrite (bind_fork_ok _ _ _ _ _ _ _ F S). step_if.
  assert (H1 : find (fun z => fst z =? Z.pos (next_pid w))
                 (children (add_child (Z.pos (next_pid w)) o p))
               = Some (Z.pos (next_pid w), o)).
  { unfold add_child; cbn [children find fst]. rewrite Z.eqb_refl. reflexivity. }
  destruct (os_wait_ok sys w2 (Z.pos (next_pid w))) eqn:W.
  - rewrite (bind_wait_ok _ _ _ _ _ H1 W). cbn beta iota. step_if.
    destruct (WIFEXITED (wait_status o)); reflexivity.
  - rewrite (bind_wait_fail _ _ _ _ _ H1 W). reflexivity.
Qed.

(** *** Descriptor allocation *)

Lemma free_from_spec (t : gmap Z ofile) k n :
  0 <= n ->
  t !! free_from t k n = None \/
  (free_from t k n = n + Z.of_nat k /\
   forall i, n <= i < n + Z.of_nat k -> is_Some (t !! i)).
Proof.
  revert n. induction k as [|k IH]; intros n Hn; simpl.
  - right. split; [lia|]. intros i Hi. lia.
  - destruct (t !! n) eqn:E; [|left; exact E].
    destruct (IH (n + 1) ltac:(lia)) as [H|[H1 H2]]; [left; exact H|].
    right. split; [lia|]. intros i Hi.
    destruct (decide (i = n)) as [->|Ne]; [rewrite E; eauto|]. apply H2. lia.
Qed.

Lemma keys_bound (t : gmap Z ofile) (m : nat) :
  (forall i, 0 <= i < Z.of_nat m -> is_Some (t !! i)) -> (m <= size t)%nat.
Proof.
  intros H.
  assert (Sub : (list_to_set (seqZ 0 (Z.of_nat m)) : gset Z) ⊆ dom t).
  { intros i Hi. apply elem_of_list_to_set, elem_of_seqZ in Hi.
    apply elem_of_dom. apply H. lia. }
  apply subseteq_size in Sub. rewrite size_dom in Sub.
  rewrite size_list_to_set in Sub by apply NoDup_seqZ.
  rewrite length_seqZ in Sub. lia.
Qed.

Lemma free_from_ge (t : gmap Z ofile) k n : n <= free_from t k n.
Proof.
  revert n. induction k as [|k IH]; intros n; simpl; [lia|].
  destruct (t !! n); [specialize (IH (n + 1)); lia | lia].
Qed.

Lemma lowest_free_nonneg (t : gmap Z ofile) : 0 <= lowest_free t.
Proof. apply free_from_ge. Qed.

(** open(2) and pipe(2) get a descriptor that is not in use. *)
Lemma lowest_free_free (t : gmap Z ofile) : t !! lowest_free t = None.
Proof.
  unfold lowest_free.
  destruct (free_from_spec t (S (size t)) 0 ltac:(lia)) as [H|[_ H]]; [exact H|].
  exfalso. assert (B := keys_bound t (S (size t)) ltac:(intros i Hi; apply H; lia)). lia.
Qed.

Lemma bind_unfold {A B} (m : M A) (f : A -> M B) p w :
  bind m f p w =
  match m p w with
  | (Ret a, p', w') => f a p' w'
  | (Term o, p', w') => (Term o, p', w')
  end.
Proof. reflexivity. Qed.

Lemma bind_close_some {B} fd (f : Z -> M B) p w x :
  0 <= fd -> fds p !! fd = Some x ->
  bind (sys_close fd) f p w = f 0 (set_fds (delete fd (fds p)) p) w.
Proof.
  intros N H. unfold bind, sys_close. rewrite H.
  replace (fd <? 0) with false by lia. reflexivity.
Qed.

(** After a successful pipe(2) both ends are open descriptors. *)
Lemma pipe_ends_open p w rc fd0 fd1 pp wp :
  sys_pipe sys p w = (Ret (rc, (fd0, fd1)), pp, wp) -> rc <> -1 ->
  rc = 0 /\ 0 <= fd1 /\ is_Some (fds pp !! fd1).
Proof.
  unfold sys_pipe. destruct (os_pipe_ok sys w); intros E Hrc; inversion E; subst.
  - split; [reflexivity|]. simpl. rewrite lookup_insert_eq. split; [|eauto].
    apply lowest_free_nonneg.
  - contradiction.
Qed.

(** C5 (amended): the PIPE runner returns a [bool]: true exactly when the
    pipe, both forks and both waits succeed and the wait status of the
    second child (the reader, evaluating [cmd2]) is non-zero.  The first
    child's status [o1] takes no part in the result. *)
Theorem pipe_truth_of_second_status (c1 c2 : option command_t) (p : proc) (w : world) :
  let '(r, pp, wp) := sys_pipe sys p w in
  match r with
  | Ret (rc, (fd0, fd1)) =>
      let '(pid1, o1, w1) := spawn (pipe_writer fd0 fd1 (parse_command sys c1)) pp wp in
      let '(pid2, o2, w2) :=
        spawn (pipe_reader fd0 (parse_command sys c2)) (set_fds (delete fd1 (fds pp)) pp) w1 in
      fst (fst (run_on_pipe sys (parse_command sys c1) (parse_command sys c2) p w)) =
      Ret (negb (rc =? -1) && os_fork_ok sys wp && os_fork_ok sys w1 &&
           os_wait_ok sys w2 pid1 && os_wait_ok sys w2 pid2 &&
           negb (wait_status o2 =? 0))
  | Term _ => False
  end.
Proof.
  destruct (sys_pipe sys p w) as [[r pp] wp] eqn:EP.
  assert (RT : exists rc fd0 fd1, r = Ret (rc, (fd0, fd1))).
  { unfold sys_pipe in EP. destruct (os_pipe_ok sys w); inversion EP; eauto. }
  destruct RT as (rc & fd0 & fd1 & ->).
  pose proof (pid_mono_pipe_writer fd0 fd1 _ (pid_mono_parse_command c1)) as M1.
  pose proof (pid_mono_pipe_reader fd0 _ (pid_mono_parse_command c2)) as M2.
  pose proof (spawn_pid _ pp wp M1) as S1.
  destruct (spawn _ pp wp) as [[pid1 o1] w1] eqn:E1.
  pose proof (spawn_pid _ (set_fds (delete fd1 (fds pp)) pp) w1 M2) as S2.
  destruct (spawn _ (set_fds (delete fd1 (fds pp)) pp) w1) as [[pid2 o2] w2] eqn:E2.
  destruct S1 as [-> L1], S2 as [-> L2].
  unfold run_on_pipe. rewrite bind_unfold, EP. cbn beta iota.
  destruct (rc =? -1) eqn:RC; [reflexivity|].
  apply Z.eqb_neq in RC. destruct (pipe_ends_open _ _ _ _ _ _ _ EP RC) as [-> [N1 [x X]]].
  destruct (os_fork_ok sys wp) eqn:F1; [|rewrite bind_fork_fail; auto].
  rewrite (bind_fork_ok _ _ _ _ _ _ _ F1 E1). step_if.
  rewrite (bind_close_some _ _ _ _ x) by assumption. cbn beta.
  destruct (os_fork_ok sys w1) eqn:F2; [|rewrite bind_fork_fail; auto].
  assert (E2' : spawn (pipe_reader fd0 (parse_command sys c2))
                  (set_fds (delete fd1 (fds (add_child (Z.pos (next_pid wp)) o1 pp)))
                     (add_child (Z.pos (next_pid wp)) o1 pp)) w1 = (Z.pos (next_pid w1), o2, w2))
    by (rewrite <- E2; reflexivity).
  rewrite (bind_fork_ok _ _ _ _ _ _ _ F2 E2'). step_if.
  assert (N : Z.pos (next_pid w1) <> Z.pos (next_pid wp)) by lia.
  apply Z.eqb_neq in N.
  rewrite bind_unfold. unfold sys_close at 1.
  destruct (fd0 <? 0); cbn beta iota;
  [| match goal with |- context [match fds ?q !! fd0 with _ => _ end] => destruct (fds q !! fd0) end;
  cbn beta iota ];
  (destruct (os_wait_ok sys w2 (Z.pos (next_pid wp))) eqn:W1;
    [ rewrite (bind_wait_ok _ o1); [| cbn [children set_fds add_child find fst];
                                      rewrite N, Z.eqb_refl; reflexivity | exact W1]
    | rewrite (bind_wait_fail _ o1); [reflexivity | cbn [children set_fds add_child find fst];
                                      rewrite N, Z.eqb_refl; reflexivity | exact W1]]);
  simpl (fst _); step_if;
  (destruct (os_wait_ok sys w2 (Z.pos (next_pid w1))) eqn:W2;
    [ rewrite (bind_wait_ok _ o2); [| unfold reap; cbn [children set_fds add_child find fst List.filter];
                                      rewrite Z.eqb_refl, N; cbn [negb find fst];
                                      rewrite Z.eqb_refl; reflexivity | exact W2]
    | rewrite (bind_wait_fail _ o2); [reflexivity | unfold reap; cbn [children set_fds add_child find fst List.filter];
                                      rewrite Z.eqb_refl, N; cbn [negb find fst];
                                      rewrite Z.eqb_refl; reflexivity | exact W2]]);
  simpl (fst _); step_if; reflexivity.
Qed.

(** *** Computations that never end the process *)

Lemma no_term_ret {A} (a : A) : no_term (ret a).
Proof. intros p w. eauto 6. Qed.

Lemma no_term_bind {A B} (m : M A) (f : A -> M B) :
  no_term m -> (forall a, no_term (f a)) -> no_term (bind m f).
Proof.
  intros Hm Hf p w. destruct (Hm p w) as (a & p' & w' & E & P).
  unfold bind. rewrite E. destruct (Hf a p' w') as (b & p'' & w'' & E' & P').
  rewrite E'. eauto 6 using eq_trans.
Qed.

Ltac prim_no_term :=
  intros ?p ?w; unfold_prims; cbn -[lowest_free];
  repeat match goal with
         | |- context [match ?x with _ => _ end] => destruct x eqn:?
         end; eauto 6.

Lemma no_term_open path flags : no_term (sys_open path flags).
Proof. prim_no_term. Qed.
Lemma no_term_close fd : no_term (sys_close fd).
Proof. prim_no_term. Qed.
Lemma no_term_dup2 a b : no_term (sys_dup2 a b).
Proof. prim_no_term. Qed.
Lemma no_term_cur_env : no_term cur_env.
Proof. prim_no_term. Qed.
Lemma no_term_get_proc : no_term get_proc.
Proof. prim_no_term. Qed.

Create HintDb no_term.
#[local] Hint Resolve no_term_ret no_term_open no_term_close no_term_dup2
  no_term_cur_env no_term_get_proc : no_term.

Ltac no_term_tac :=
  repeat ((apply no_term_bind; [|intros ?]) ||
          match goal with
          | |- no_term (match ?x with _ => _ end) => destruct x
          end);
  eauto with no_term.

Lemma no_term_child_redirections s : no_term (child_redirections s).
Proof. unfold child_redirections. no_term_tac. Qed.


Lemma exec_child_unloadable s verb pc wc :
  (forall w' p' argv, os_exec sys w' p' (w_string verb) argv = None) ->
  exists pc' wc' d l,
    exec_child sys s verb pc wc = (Term (Exited 1), pc', wc') /\
    trace wc' = l ++ [EWrite (pid pc) d ("Execution failed for '" ++ w_string verb ++ "'" ++ newline)%string;
                      EExit (pid pc) 1].
Proof.
  intros Hx. unfold exec_child. rewrite bind_unfold.
  destruct (no_term_child_redirections s pc wc) as (a & p1 & w1 & E & P).
  rewrite E. cbn beta iota. unfold cur_env, get_proc, sys_execvp, bind, ret. cbn beta iota.
  rewrite Hx. simpl. unfold fprintf_stderr, sys_exit, log. simpl.
  rewrite P. do 4 eexists. split; [reflexivity|].
  rewrite <- app_assoc. reflexivity.
Qed.

(** C9: when the verb of an external command cannot be loaded, the
    forked child writes "Execution failed for '<verb>'" to its standard
    error and exits with status 1, these being its last actions (it never
    comes back to the evaluator); the leaf's status is non-zero (256, or
    -1 if waitpid fails). *)
Theorem unloadable_command_fails (s : simple_command_t) (verb : word_t) (p : proc) (w : world) :
  s_verb s = Some verb ->
  String.eqb (w_string verb) "cd" = false ->
  String.eqb (w_string verb) "exit" = false ->
  String.eqb (w_string verb) "quit" = false ->
  match w_next_part verb with Some n => String.eqb (w_string n) "=" = false | None => True end ->
  (forall w' p' argv, os_exec sys w' p' (w_string verb) argv = None) ->
  os_fork_ok sys w = true ->
  let '(r, _, w') := parse_simple sys (Some s) p w in
  (exists st, r = Ret st /\ st <> 0) /\
  exists l d, trace w' =
    l ++ [EWrite (Z.pos (next_pid w)) d ("Execution failed for '" ++ w_string verb ++ "'" ++ newline)%string;
          EExit (Z.pos (next_pid w)) 1].
Proof.
  intros Hv Hcd Hex Hq Has Hx Hf.
  unfold parse_simple. rewrite Hv, Hcd, Hex, Hq. cbn [orb].
  assert (Ha : match w_next_part verb with
               | Some n => if (w_string n =? "=")%string then Some n else None
               | None => None end = None)
    by (destruct (w_next_part verb); [rewrite Has|]; reflexivity).
  rewrite Ha.
  destruct (exec_child_unloadable s verb
              (mk_proc (Z.pos (next_pid w)) (cwd p) (env p) (fds p) [])
              (log (EFork (pid p) (Z.pos (next_pid w)))
                 (mk_world (dirs w) (files w) (next_id w) (Pos.succ (next_pid w)) (trace w))) Hx)
    as (pc' & wc' & d & l & E & T).
  assert (S : spawn (exec_child sys s verb) p w = (Z.pos (next_pid w), Exited 1, wc'))
    by (unfold spawn; rewrite E; reflexivity).
  rewrite (bind_fork_ok _ _ _ _ _ _ _ Hf S). step_if.
  assert (H1 : find (fun z => fst z =? Z.pos (next_pid w))
                 (children (add_child (Z.pos (next_pid w)) (Exited 1) p))
               = Some (Z.pos (next_pid w), Exited 1)).
  { unfold add_child; cbn [children find fst]. rewrite Z.eqb_refl. reflexivity. }
  destruct (os_wait_ok sys wc' (Z.pos (next_pid w))) eqn:W.
  - rewrite (bind_wait_ok _ _ _ _ _ H1 W). simpl. split.
    + eexists; split; [reflexivity | discriminate].
    + eauto.
  - rewrite (bind_wait_fail _ _ _ _ _ H1 W). simpl. split.
    + eexists; split; [reflexivity | discriminate].
    + eauto.
Qed.

(** *** Frames of the redirection blocks *)


Lemma set_fds_set_fds t1 t2 p : set_fds t1 (set_fds t2 p) = set_fds t1 p.
Proof. destruct p; reflexivity. Qed.



(** *** What [shell_cd] touches *)










(** *** The redirections of [cd] *)





(** *** What the redirections of [cd] leave alone *)

Lemma keeps_ret {A} (a : A) : keeps_cwd_env (ret a).
Proof. intros p w. cbn. auto. Qed.

Lemma keeps_bind {A B} (m : M A) (f : A -> M B) :
  keeps_cwd_env m -> (forall a, keeps_cwd_env (f a)) -> keeps_cwd_env (bind m f).
Proof.
  intros Hm Hf p w. unfold bind. specialize (Hm p w).
  destruct (m p w) as [[[a|o] p1] w1]; [|exact Hm].
  destruct Hm as (C1 & E1 & D1). specialize (Hf a p1 w1).
  destruct (f a p1 w1) as [[r p2] w2]. destruct Hf as (C2 & E2 & D2).
  split; [|split]; congruence.
Qed.

Lemma keeps_open path flags : keeps_cwd_env (sys_open path flags).
Proof.
  intros p w. unfold sys_open. cbn -[lowest_free creatable].
  destruct (if Z.testbit flags 6 then _ else _); cbn; auto.
Qed.

Lemma keeps_close fd : keeps_cwd_env (sys_close fd).
Proof.
  intros p w. unfold sys_close.
  destruct (fd <? 0); [|destruct (fds p !! fd)]; cbn; auto.
Qed.

Lemma keeps_dup2 a b : keeps_cwd_env (sys_dup2 a b).
Proof.
  intros p w. unfold sys_dup2.
  destruct (_ || _); [|destruct (fds p !! a); [destruct (a =? b)|]]; cbn; auto.
Qed.





Lemma no_term_fork child : no_term (sys_fork sys child).
Proof.
  intros p w. unfold sys_fork. destruct (os_fork_ok sys w).
  - destruct (spawn child p w) as [[c o] w2]. eauto 6.
  - eauto 6.
Qed.

Lemma no_term_waitpid c : no_term (sys_waitpid sys c).
Proof.
  intros p w. unfold sys_waitpid.
  destruct (find _ _) as [[? o]|]; [destruct (os_wait_ok sys w c)|]; eauto 6.
Qed.

Lemma no_term_pipe : no_term (sys_pipe sys).
Proof. intros p w. unfold sys_pipe. destruct (os_pipe_ok sys w); eauto 6. Qed.

Lemma no_term_run_in_parallel m1 m2 : no_term (run_in_parallel sys m1 m2).
Proof.
  unfold run_in_parallel.
  repeat ((apply no_term_bind; [|intros ?]) ||
          match goal with
          | |- no_term (if ?x then _ else _) => destruct x
          | |- no_term (let '(_, _) := ?x in _) => destruct x
          end);
  auto using no_term_ret, no_term_fork, no_term_waitpid.
Qed.

Lemma no_term_run_on_pipe m1 m2 : no_term (run_on_pipe sys m1 m2).
Proof.
  unfold run_on_pipe.
  repeat ((apply no_term_bind; [|intros ?]) ||
          match goal with
          | |- no_term (if ?x then _ else _) => destruct x
          | |- no_term (let '(_, _) := ?x in _) => destruct x
          | |- no_term (match ?x with _ => _ end) => destruct x
          end);
  auto using no_term_ret, no_term_fork, no_term_waitpid, no_term_pipe, no_term_close.
Qed.





Lemma bind_cur_env {B} (f : gmap String.string String.string -> M B) p w :
  bind cur_env f p w = f (env p) p w.
Proof. reflexivity. Qed.



(** *** Views of the process record *)

Lemma view_ret {X A} (f : proc -> X) (a : A) : keeps_view f (ret a).
Proof. intros p w. reflexivity. Qed.

Lemma view_bind {X A B} (f : proc -> X) (m : M A) (g : A -> M B) :
  keeps_view f m -> (forall a, keeps_view f (g a)) -> keeps_view f (bind m g).
Proof.
  intros Hm Hg p w. unfold bind. specialize (Hm p w).
  destruct (m p w) as [[[a|o] p1] w1]; cbn in *; [rewrite Hg|]; exact Hm.
Qed.

Lemma view_fork {X} (f : proc -> X) child :
  (forall c o q, f (add_child c o q) = f q) -> keeps_view f (sys_fork sys child).
Proof.
  intros H p w. unfold sys_fork. destruct (os_fork_ok sys w); [|reflexivity].
  destruct (spawn child p w) as [[c o] w2]. apply H.
Qed.

Lemma view_waitpid {X} (f : proc -> X) c :
  (forall q, f (reap c q) = f q) -> keeps_view f (sys_waitpid sys c).
Proof.
  intros H p w. unfold sys_waitpid.
  destruct (find _ _) as [[? o]|]; [destruct (os_wait_ok sys w c); [apply H|]|]; reflexivity.
Qed.

Lemma view_pipe {X} (f : proc -> X) :
  (forall t q, f (set_fds t q) = f q) -> keeps_view f (sys_pipe sys).
Proof. intros H p w. unfold sys_pipe. destruct (os_pipe_ok sys w); [apply H | reflexivity]. Qed.

Lemma view_close {X} (f : proc -> X) fd :
  (forall t q, f (set_fds t q) = f q) -> keeps_view f (sys_close fd).
Proof.
  intros H p w. unfold sys_close.
  destruct (fd <? 0); [|destruct (fds p !! fd); [apply H|]]; reflexivity.
Qed.

Ltac view_tac :=
  repeat ((apply view_bind; [|intros ?]) ||
          match goal with
          | |- keeps_view _ (if ?x then _ else _) => destruct x
          | |- keeps_view _ (let '(_, _) := ?x in _) => destruct x
          | |- keeps_view _ (match ?x with _ => _ end) => destruct x
          end);
  first [ apply view_ret
        | apply view_fork; intros; reflexivity
        | apply view_waitpid; intros; reflexivity
        | apply view_pipe; intros; reflexivity
        | apply view_close; intros; reflexivity ].

Lemma parallel_keeps_shell m1 m2 :
  keeps_view (fun q => (pid q, cwd q, env q)) (run_in_parallel sys m1 m2).
Proof. unfold run_in_parallel. view_tac. Qed.

Lemma pipe_keeps_shell m1 m2 :
  keeps_view (fun q => (pid q, cwd q, env q)) (run_on_pipe sys m1 m2).
Proof. unfold run_on_pipe. view_tac. Qed.

(** X7: a PARALLEL or PIPE node runs its subtrees in forked children only:
    whatever they do ([cd], assignments), the shell's working directory
    and environment are the ones it had. *)
Theorem subshell_keeps_cwd_env (sc : option simple_command_t) (c1 c2 : option command_t)
    (p : proc) (w : world) :
  (let p' := snd (fst (parse_command_t sys (mk_command OP_PARALLEL sc c1 c2) p w)) in
   cwd p' = cwd p /\ env p' = env p) /\
  (let p' := snd (fst (parse_command_t sys (mk_command OP_PIPE sc c1 c2) p w)) in
   cwd p' = cwd p /\ env p' = env p).
Proof.
  split; cbn [parse_command_t]; rewrite bind_unfold.
  - pose proof (parallel_keeps_shell
                  (match c1 with None => ret 0 | Some c' => parse_command_t sys c' end)
                  (match c2 with None => ret 0 | Some c' => parse_command_t sys c' end) p w) as K.
    destruct (run_in_parallel _ _ _ p w) as [[[b|o] p1] w1]; cbn in *; injection K; auto.
  - pose proof (pipe_keeps_shell
                  (match c1 with None => ret 0 | Some c' => parse_command_t sys c' end)
                  (match c2 with None => ret 0 | Some c' => parse_command_t sys c' end) p w) as K.
    destruct (run_on_pipe _ _ _ p w) as [[[b|o] p1] w1]; cbn in *; injection K; auto.
Qed.

(** X2: an external command changes nothing of the shell's own process
    record but its children: its redirections, and everything else, happen
    in the forked child, so the shell's working directory, environment and
    descriptor table are the ones it had. *)
Theorem external_leaf_keeps_shell (s : simple_command_t) (verb : word_t) (p : proc) (w : world) :
  s_verb s = Some verb ->
  String.eqb (w_string verb) "cd" = false ->
  String.eqb (w_string verb) "exit" = false ->
  String.eqb (w_string verb) "quit" = false ->
  match w_next_part verb with Some n => String.eqb (w_string n) "=" = false | None => True end ->
  let p' := snd (fst (parse_simple sys (Some s) p w)) in
  cwd p' = cwd p /\ env p' = env p /\ fds p' = fds p.
Proof.
  intros Hv Hcd Hex Hq Has.
  unfold parse_simple. rewrite Hv, Hcd, Hex, Hq. cbn [orb].
  assert (Ha : match w_next_part verb with
               | Some n => if (w_string n =? "=")%string then Some n else None
               | None => None end = None)
    by (destruct (w_next_part verb); [rewrite Has|]; reflexivity).
  rewrite Ha.
  assert (K : keeps_view (fun q => (cwd q, env q, fds q))
                (cpid <- sys_fork sys (exec_child sys s verb) ;;
                 if cpid =? -1 then ret (-1) else
                 r <- sys_waitpid sys cpid ;;
                 let '(rc, status) := r in
                 if rc =? -1 then ret (-1)
                 else if WIFEXITED status then ret status
                 else ret 0)) by view_tac.
  specialize (K p w). cbn beta in K. injection K. auto.
Qed.

(** *** Descriptors of [run_on_pipe] *)

Lemma pipe_ok_eq p w :
  os_pipe_ok sys w = true ->
  let T := fds p in
  let r := lowest_free T in
  let wr := lowest_free (<[r := OPipeR (next_id w)]> T) in
  sys_pipe sys p w =
  (Ret (0, (r, wr)), set_fds (<[wr := OPipeW (next_id w)]> (<[r := OPipeR (next_id w)]> T)) p,
   mk_world (dirs w) (files w) (S (next_id w)) (next_pid w) (trace w)).
Proof. intros H. unfold sys_pipe. rewrite H. reflexivity. Qed.

(** The two ends of a pipe: fresh, distinct, non-negative descriptors. *)
Lemma pipe_ends_fresh (T : gmap Z ofile) i :
  let r := lowest_free T in
  let wr := lowest_free (<[r := OPipeR i]> T) in
  0 <= r /\ 0 <= wr /\ r <> wr /\ T !! r = None /\ T !! wr = None.
Proof.
  cbn zeta. pose proof (lowest_free_nonneg T). pose proof (lowest_free_free T).
  pose proof (lowest_free_nonneg (<[lowest_free T := OPipeR i]> T)).
  pose proof (lowest_free_free (<[lowest_free T := OPipeR i]> T)) as F.
  assert (Ne : lowest_free T <> lowest_free (<[lowest_free T := OPipeR i]> T)).
  { intros E. rewrite <- E, lookup_insert_eq in F. discriminate. }
  rewrite lookup_insert_ne in F by exact Ne. auto.
Qed.

Lemma fds_set_fds t q : fds (set_fds t q) = t.
Proof. reflexivity. Qed.

Lemma fds_add_child c o q : fds (add_child c o q) = fds q.
Proof. reflexivity. Qed.

(** *** What a PARALLEL or PIPE node leaves behind *)

(** Once both children of [run_in_parallel] are forked, the waits that
    follow leave the world alone: the node ends in the world the second
    child left. *)
Lemma run_in_parallel_forked m1 m2 p w pid1 o1 w1 pid2 o2 w2 :
  os_fork_ok sys w = true -> spawn (parallel_child m1) p w = (pid1, o1, w1) ->
  os_fork_ok sys w1 = true -> spawn (parallel_child m2) p w1 = (pid2, o2, w2) ->
  exists b p', run_in_parallel sys m1 m2 p w = (Ret b, p', w2) /\ pid p' = pid p.
Proof.
  intros F1 E1 F2 E2.
  pose proof (spawn_cpid (parallel_child m1) p w) as C1. rewrite E1 in C1. subst pid1.
  pose proof (spawn_cpid (parallel_child m2) p w1) as C2. rewrite E2 in C2. subst pid2.
  unfold run_in_parallel.
  rewrite (bind_fork_ok _ _ _ _ _ _ _ F1 E1). step_if.
  assert (E2' : spawn (parallel_child m2) (add_child (Z.pos (next_pid w)) o1 p) w1 =
                (Z.pos (next_pid w1), o2, w2)) by (rewrite <- E2; reflexivity).
  rewrite (bind_fork_ok _ _ _ _ _ _ _ F2 E2'). step_if.
  unfold bind, sys_waitpid, ret. repeat case_match; simplify_eq; eauto.
Qed.

(** Likewise for [run_on_pipe]: after pipe(2) and the two forks, the
    node ends in the world the reading child left.  The writer is forked
    from the table with both ends; the reader from the table with the
    read end only, the parent having closed the write end. *)
Lemma run_on_pipe_forked m1 m2 p w pid1 o1 w1 pid2 o2 w2 :
  os_pipe_ok sys w = true ->
  let i := next_id w in
  let r := lowest_free (fds p) in
  let wr := lowest_free (<[r := OPipeR i]> (fds p)) in
  let pp := set_fds (<[wr := OPipeW i]> (<[r := OPipeR i]> (fds p))) p in
  let wp := mk_world (dirs w) (files w) (S i) (next_pid w) (trace w) in
  os_fork_ok sys wp = true -> spawn (pipe_writer r wr m1) pp wp = (pid1, o1, w1) ->
  os_fork_ok sys w1 = true ->
  spawn (pipe_reader r m2) (set_fds (<[r := OPipeR i]> (fds p)) p) w1 = (pid2, o2, w2) ->
  exists b p', run_on_pipe sys m1 m2 p w = (Ret b, p', w2) /\ pid p' = pid p.
Proof.
  intros P i r wr pp wp F1 E1 F2 E2.
  destruct (pipe_ends_fresh (fds p) i) as (N0 & N1 & Ne & G0 & G1).
  fold r wr in N0, N1, Ne, G0, G1.
  pose proof (spawn_cpid (pipe_writer r wr m1) pp wp) as C1. rewrite E1 in C1. subst pid1.
  pose proof (spawn_cpid (pipe_reader r m2) (set_fds (<[r := OPipeR i]> (fds p)) p) w1) as C2.
  rewrite E2 in C2. subst pid2.
  unfold run_on_pipe. rewrite bind_unfold, (pipe_ok_eq p w P). fold i r wr pp wp.
  replace (0 =? -1) with false by reflexivity. cbn iota.
  rewrite (bind_fork_ok _ _ _ _ _ _ _ F1 E1). step_if.
  rewrite (bind_close_some _ _ _ _ (OPipeW i)) by
    (try exact N1; unfold pp; cbn; apply lookup_insert_eq).
  cbn beta. rewrite fds_add_child. unfold pp at 1. rewrite fds_set_fds.
  rewrite delete_insert_id by (rewrite lookup_insert_ne by exact Ne; exact G1).
  assert (E2' : spawn (pipe_reader r m2)
                  (set_fds (<[r := OPipeR i]> (fds p)) (add_child (Z.pos (next_pid wp)) o1 pp)) w1 =
                (Z.pos (next_pid w1), o2, w2)) by (rewrite <- E2; reflexivity).
  rewrite (bind_fork_ok _ _ _ _ _ _ _ F2 E2'). step_if.
  unfold bind, sys_close, sys_waitpid, ret. repeat case_match; simplify_eq; eauto.
Qed.

(** C8 (amended): an [exit] or [quit] leaf ends the process evaluating it
    with exit status 0, as its last action.  In that process nothing more
    runs: a SEQUENTIAL or conditional node whose [cmd1] ended the process
    ends it the same way without evaluating [cmd2].  A PARALLEL or PIPE
    node, however, always comes back to its caller, in the shell process,
    so a SEQUENTIAL ancestor goes on with its [cmd2] from there.  Its two
    subtrees are evaluated by forked children ([spawn], each under a fresh
    pid): an [exit] inside one of them ends that child only.  When both
    forks succeed (and, for PIPE, pipe(2)), the second child is forked
    after the first one has run, whatever it did, and the node returns in
    the world the second child left. *)
Theorem exit_ends_current_process (s : simple_command_t) (verb : word_t) (p : proc) (w : world) :
  s_verb s = Some verb ->
  (String.eqb (w_string verb) "exit" || String.eqb (w_string verb) "quit") = true ->
  parse_simple sys (Some s) p w = (Term (Exited 0), p, log (EExit (pid p) 0) w) /\
  (forall op sc c1 c2 p1 w1 o p2 w2,
     In op [OP_SEQUENTIAL; OP_CONDITIONAL_NZERO; OP_CONDITIONAL_ZERO] ->
     parse_command sys c1 p1 w1 = (Term o, p2, w2) ->
     parse_command_t sys (mk_command op sc c1 c2) p1 w1 = (Term o, p2, w2)) /\
  (forall op sc c1 c2 sc' c3 p1 w1,
     In op [OP_PARALLEL; OP_PIPE] ->
     exists v p2 w2, parse_command_t sys (mk_command op sc c1 c2) p1 w1 = (Ret v, p2, w2) /\
                     pid p2 = pid p1 /\
     parse_command_t sys (mk_command OP_SEQUENTIAL sc' (Some (mk_command op sc c1 c2)) c3) p1 w1 =
     match parse_command sys c3 p2 w2 with
     | (Ret r3, p3, w3) => (Ret (Z.land v r3), p3, w3)
     | (Term o, p3, w3) => (Term o, p3, w3)
     end) /\
  (forall sc c1 c2 p1 w1 pid1 o1 wa pid2 o2 wb,
     os_fork_ok sys w1 = true ->
     spawn (parallel_child (parse_command sys c1)) p1 w1 = (pid1, o1, wa) ->
     os_fork_ok sys wa = true ->
     spawn (parallel_child (parse_command sys c2)) p1 wa = (pid2, o2, wb) ->
     exists v p2, parse_command_t sys (mk_command OP_PARALLEL sc c1 c2) p1 w1 = (Ret v, p2, wb) /\
                  pid p2 = pid p1) /\
  (forall sc c1 c2 p1 w1 pid1 o1 wa pid2 o2 wb,
     os_pipe_ok sys w1 = true ->
     let i := next_id w1 in
     let r := lowest_free (fds p1) in
     let wr := lowest_free (<[r := OPipeR i]> (fds p1)) in
     let pp := set_fds (<[wr := OPipeW i]> (<[r := OPipeR i]> (fds p1))) p1 in
     let wp := mk_world (dirs w1) (files w1) (S i) (next_pid w1) (trace w1) in
     os_fork_ok sys wp = true ->
     spawn (pipe_writer r wr (parse_command sys c1)) pp wp = (pid1, o1, wa) ->
     os_fork_ok sys wa = true ->
     spawn (pipe_reader r (parse_command sys c2)) (set_fds (<[r := OPipeR i]> (fds p1)) p1) wa =
       (pid2, o2, wb) ->
     exists v p2, parse_command_t sys (mk_command OP_PIPE sc c1 c2) p1 w1 = (Ret v, p2, wb) /\
                  pid p2 = pid p1).
Proof.
  intros Hv Hx. split; [|split; [|split; [|split]]].
  - unfold parse_simple. rewrite Hv.
    assert (Hcd : String.eqb (w_string verb) "cd" = false).
    { apply orb_true_iff in Hx. apply String.eqb_neq.
      destruct Hx as [Hx|Hx]; apply String.eqb_eq in Hx; rewrite Hx; discriminate. }
    rewrite Hcd, Hx. reflexivity.
  - intros op sc c1 c2 p1 w1 o p2 w2 Hop E.
    destruct Hop as [<-|[<-|[<-|[]]]]; cbn [parse_command_t]; rewrite bind_unfold;
      change (match c1 with None => ret 0 | Some c' => parse_command_t sys c' end)
        with (parse_command sys c1); rewrite E; reflexivity.
  - intros op sc c1 c2 sc' c3 p1 w1 Hop.
    assert (R : exists v p2 w2,
               parse_command_t sys (mk_command op sc c1 c2) p1 w1 = (Ret v, p2, w2) /\
               pid p2 = pid p1).
    { destruct Hop as [<-|[<-|[]]]; cbn [parse_command_t]; rewrite bind_unfold.
      + destruct (no_term_run_in_parallel
                    (match c1 with None => ret 0 | Some c' => parse_command_t sys c' end)
                    (match c2 with None => ret 0 | Some c' => parse_command_t sys c' end) p1 w1)
          as (b & p2 & w2 & E & P).
        rewrite E. eauto.
      + destruct (no_term_run_on_pipe
                    (match c1 with None => ret 0 | Some c' => parse_command_t sys c' end)
                    (match c2 with None => ret 0 | Some c' => parse_command_t sys c' end) p1 w1)
          as (b & p2 & w2 & E & P).
        rewrite E. eauto. }
    destruct R as (v & p2 & w2 & E & P). exists v, p2, w2.
    split; [exact E|split; [exact P|]].
    rewrite sequential_eq, parse_command_some, E. reflexivity.
  - intros sc c1 c2 p1 w1 pid1 o1 wa pid2 o2 wb F1 E1 F2 E2.
    destruct (run_in_parallel_forked _ _ _ _ _ _ _ _ _ _ F1 E1 F2 E2) as (b & p2 & E & P).
    cbn [parse_command_t]. rewrite bind_unfold.
    change (match c1 with None => ret 0 | Some c' => parse_command_t sys c' end)
      with (parse_command sys c1).
    change (match c2 with None => ret 0 | Some c' => parse_command_t sys c' end)
      with (parse_command sys c2).
    rewrite E. eauto.
  - intros sc c1 c2 p1 w1 pid1 o1 wa pid2 o2 wb P i r wr pp wp F1 E1 F2 E2.
    destruct (run_on_pipe_forked _ _ _ _ _ _ _ _ _ _ P F1 E1 F2 E2) as (b & p2 & E & Q).
    cbn [parse_command_t]. rewrite bind_unfold.
    change (match c1 with None => ret 0 | Some c' => parse_command_t sys c' end)
      with (parse_command sys c1).
    change (match c2 with None => ret 0 | Some c' => parse_command_t sys c' end)
      with (parse_command sys c2).
    rewrite E. eauto.
Qed.


(** X9: the shell's descriptor table after a PIPE node: when the pipe and
    both forks succeed, both pipe ends are closed again in the shell and
    its table is the one it had (whatever the waits give).  When the
    second fork fails the read end stays open in the shell, and when the
    first fork fails both ends do. *)
Theorem pipe_descriptors_in_shell (m1 m2 : M Z) (p : proc) (w : world) :
  let T := fds p in
  let i := next_id w in
  let r := lowest_free T in
  let wr := lowest_free (<[r := OPipeR i]> T) in
  let '(_, pp, wp) := sys_pipe sys p w in
  let '(_, _, w1) := spawn (pipe_writer r wr m1) pp wp in
  fds (snd (fst (run_on_pipe sys m1 m2 p w))) =
  if os_pipe_ok sys w then
    if os_fork_ok sys wp then
      if os_fork_ok sys w1 then T else <[r := OPipeR i]> T
    else <[wr := OPipeW i]> (<[r := OPipeR i]> T)
  else T.
Proof.
  cbn zeta. destruct (os_pipe_ok sys w) eqn:P.
  2:{ unfold sys_pipe at 1. rewrite P. unfold run_on_pipe. rewrite bind_unfold.
      unfold sys_pipe. rewrite P. cbn. destruct (spawn _ _ _) as [[? ?] ?]. reflexivity. }
  rewrite (pipe_ok_eq p w P).
  destruct (pipe_ends_fresh (fds p) (next_id w)) as (N0 & N1 & Ne & G0 & G1).
  set (r := lowest_free (fds p)) in *.
  set (wr := lowest_free (<[r := OPipeR (next_id w)]> (fds p))) in *.
  set (pp := set_fds _ p). set (wp := mk_world _ _ _ _ _).
  destruct (spawn (pipe_writer r wr m1) pp wp) as [[pid1 o1] w1] eqn:E1.
  unfold run_on_pipe. rewrite bind_unfold, (pipe_ok_eq p w P). fold r wr pp wp.
  cbn beta iota. replace (0 =? -1) with false by reflexivity. cbn iota.
  destruct (os_fork_ok sys wp) eqn:F1; [|rewrite bind_fork_fail; auto].
  rewrite (bind_fork_ok _ _ _ _ _ _ _ F1 E1).
  pose proof (spawn_cpid (pipe_writer r wr m1) pp wp) as C. rewrite E1 in C. subst pid1.
  step_if.
  rewrite (bind_close_some _ _ _ _ (OPipeW (next_id w))) by
    (try exact N1; cbn; apply lookup_insert_eq).
  cbn beta. rewrite fds_add_child. unfold pp at 1. rewrite fds_set_fds.
  rewrite delete_insert_id by (rewrite lookup_insert_ne by exact Ne; exact G1).
  destruct (os_fork_ok sys w1) eqn:F2; [|rewrite bind_fork_fail by exact F2; reflexivity].
  destruct (spawn (pipe_reader r m2) (set_fds (<[r := OPipeR (next_id w)]> (fds p))
              (add_child (Z.pos (next_pid wp)) o1 pp)) w1) as [[pid2 o2] w2] eqn:E2.
  rewrite (bind_fork_ok _ _ _ _ _ _ _ F2 E2).
  pose proof (spawn_cpid (pipe_reader r m2) (set_fds (<[r := OPipeR (next_id w)]> (fds p))
              (add_child (Z.pos (next_pid wp)) o1 pp)) w1) as C. rewrite E2 in C. subst pid2.
  step_if.
  rewrite (bind_close_some _ _ _ _ (OPipeR (next_id w))) by
    (try exact N0; cbn; apply lookup_insert_eq).
  cbn beta. rewrite fds_add_child, fds_set_fds.
  rewrite delete_insert_id by exact G0.
  match goal with |- fds (snd (fst (?k ?q ?v))) = _ =>
    assert (K : keeps_view fds k) by view_tac; rewrite (K q v) end.
  reflexivity.
Qed.

(** X10: the children of a PIPE node.  The writer (which evaluates [cmd1])
    runs its subtree with the shell's descriptor table except that
    standard output is the write end of the pipe; the reader (which
    evaluates [cmd2]) with the shell's table except that standard input
    is the read end.  Neither keeps the other end, nor a second copy of
    its own end.  Both children then exit with the subtree's status. *)
Theorem pipe_children_tables (p : proc) (w : world) fd0 fd1 pp wp :
  sys_pipe sys p w = (Ret (0, (fd0, fd1)), pp, wp) ->
  is_Some (fds p !! STDIN_FILENO) -> is_Some (fds p !! STDOUT_FILENO) ->
  (forall (m : M Z) q v, fds q = fds pp ->
     pipe_writer fd0 fd1 m q v =
     bind m (fun rc => sys_exit rc)
       (set_fds (<[STDOUT_FILENO := OPipeW (next_id w)]> (fds p)) q) v) /\
  (forall (m : M Z) q v, fds q = delete fd1 (fds pp) ->
     pipe_reader fd0 m q v =
     bind m (fun rc => sys_exit rc)
       (set_fds (<[STDIN_FILENO := OPipeR (next_id w)]> (fds p)) q) v).
Proof.
  intros E [x0 X0] [x1 X1].
  destruct (os_pipe_ok sys w) eqn:P.
  2:{ unfold sys_pipe in E. rewrite P in E. discriminate. }
  rewrite (pipe_ok_eq p w P) in E. injection E as <- <- <- <-.
  destruct (pipe_ends_fresh (fds p) (next_id w)) as (N0 & N1 & Ne & G0 & G1).
  set (r := lowest_free (fds p)) in *.
  set (wr := lowest_free (<[r := OPipeR (next_id w)]> (fds p))) in *.
  assert (Hr0 : r <> STDIN_FILENO) by (intros Er; rewrite Er in G0; congruence).
  assert (Hr1 : r <> STDOUT_FILENO) by (intros Er; rewrite Er in G0; congruence).
  assert (Hw0 : wr <> STDIN_FILENO) by (intros Er; rewrite Er in G1; congruence).
  assert (Hw1 : wr <> STDOUT_FILENO) by (intros Er; rewrite Er in G1; congruence).
  unfold STDIN_FILENO, STDOUT_FILENO in *. rewrite ?fds_set_fds.
  split; intros m q v Q.
  - unfold pipe_writer. unfold STDOUT_FILENO. unfold bind at 1. unfold sys_close at 1.
    replace (r <? 0) with false by lia. rewrite Q.
    rewrite lookup_insert_ne by congruence. rewrite lookup_insert_eq.
    cbn beta iota. unfold bind at 1. unfold sys_dup2 at 1.
    replace ((wr <? 0) || (1 <? 0)) with false by lia. rewrite ?fds_set_fds.
    rewrite delete_insert_ne by congruence.
    rewrite delete_insert_id by exact G0.
    rewrite lookup_insert_eq. replace (wr =? 1) with false by lia.
    cbn beta iota. unfold bind at 1. unfold sys_close at 1.
    replace (wr <? 0) with false by lia. rewrite ?fds_set_fds.
    rewrite lookup_insert_ne by congruence. rewrite lookup_insert_eq.
    cbn beta iota. rewrite ?fds_set_fds.
    rewrite delete_insert_ne by congruence.
    rewrite delete_insert_id by exact G1.
    rewrite !set_fds_set_fds. reflexivity.
  - unfold pipe_reader. unfold STDIN_FILENO. unfold bind at 1. unfold sys_dup2 at 1.
    replace ((r <? 0) || (0 <? 0)) with false by lia. rewrite Q.
    rewrite delete_insert_id by (rewrite lookup_insert_ne by exact Ne; exact G1).
    rewrite lookup_insert_eq. replace (r =? 0) with false by lia.
    cbn beta iota. unfold bind at 1. unfold sys_close at 1.
    replace (r <? 0) with false by lia. rewrite ?fds_set_fds.
    rewrite lookup_insert_ne by congruence. rewrite lookup_insert_eq.
    cbn beta iota. rewrite ?fds_set_fds.
    rewrite delete_insert_ne by congruence.
    rewrite delete_insert_id by exact G0.
    rewrite !set_fds_set_fds. reflexivity.
Qed.

(** *** Children of [run_in_parallel] *)

Lemma filter_below (l : list (Z * outcome)) n c :
  Forall (fun z => fst z < n) l -> n <= c ->
  List.filter (fun z => negb (fst z =? c)) l = l.
Proof.
  intros H Hc. induction H as [|[z o] l Hz _ IH]; [reflexivity|].
  cbn in *. replace (z =? c) with false by lia. cbn. rewrite IH. reflexivity.
Qed.

(** X8: which children the shell is left with after a PARALLEL node (the
    pids of its earlier children being below the next pid).  When both
    forks and both waits succeed, both children are reaped; when the
    second fork fails, the first child has been forked but is never
    waited for; when a wait fails, the children not yet waited for stay. *)
Theorem parallel_children_left (c1 c2 : option command_t) (p : proc) (w : world) :
  Forall (fun z => fst z < Zpos (next_pid w)) (children p) ->
  let '(pid1, o1, w1) := spawn (parallel_child (parse_command sys c1)) p w in
  let '(pid2, o2, w2) := spawn (parallel_child (parse_command sys c2)) p w1 in
  children (snd (fst (run_in_parallel sys (parse_command sys c1) (parse_command sys c2) p w))) =
  if os_fork_ok sys w then
    if os_fork_ok sys w1 then
      if os_wait_ok sys w2 pid1 then
        if os_wait_ok sys w2 pid2 then children p else (pid2, o2) :: children p
      else (pid2, o2) :: (pid1, o1) :: children p
    else (pid1, o1) :: children p
  else children p.
Proof.
  intros Hc.
  pose proof (pid_mono_parallel_child _ (pid_mono_parse_command c1)) as M1.
  pose proof (pid_mono_parallel_child _ (pid_mono_parse_command c2)) as M2.
  pose proof (spawn_pid _ p w M1) as S1.
  destruct (spawn _ p w) as [[pid1 o1] w1] eqn:E1.
  pose proof (spawn_pid _ p w1 M2) as S2.
  destruct (spawn _ p w1) as [[pid2 o2] w2] eqn:E2.
  destruct S1 as [-> L1], S2 as [-> L2].
  unfold run_in_parallel.
  destruct (os_fork_ok sys w) eqn:F1; [|rewrite bind_fork_fail; auto].
  rewrite (bind_fork_ok _ _ _ _ _ _ _ F1 E1). step_if.
  destruct (os_fork_ok sys w1) eqn:F2; [|rewrite bind_fork_fail; auto].
  assert (E2' : spawn (parallel_child (parse_command sys c2))
                  (add_child (Z.pos (next_pid w)) o1 p) w1 = (Z.pos (next_pid w1), o2, w2))
    by (rewrite <- E2; reflexivity).
  rewrite (bind_fork_ok _ _ _ _ _ _ _ F2 E2'). step_if.
  assert (N : Z.pos (next_pid w1) <> Z.pos (next_pid w)) by lia.
  apply Z.eqb_neq in N.
  assert (H1 : find (fun z => fst z =? Z.pos (next_pid w))
                 (children (add_child (Z.pos (next_pid w1)) o2 (add_child (Z.pos (next_pid w)) o1 p)))
               = Some (Z.pos (next_pid w), o1)).
  { unfold add_child; cbn [children find fst]. rewrite N, Z.eqb_refl. reflexivity. }
  destruct (os_wait_ok sys w2 (Z.pos (next_pid w))) eqn:W1;
    [|rewrite (bind_wait_fail _ _ _ _ _ H1 W1); reflexivity].
  rewrite (bind_wait_ok _ _ _ _ _ H1 W1). simpl (fst _). step_if.
  assert (H2 : find (fun z => fst z =? Z.pos (next_pid w1))
                 (children (reap (Z.pos (next_pid w))
                   (add_child (Z.pos (next_pid w1)) o2 (add_child (Z.pos (next_pid w)) o1 p))))
               = Some (Z.pos (next_pid w1), o2)).
  { unfold add_child, reap; cbn [children find fst List.filter].
    rewrite Z.eqb_refl, N. cbn [negb find fst]. rewrite Z.eqb_refl. reflexivity. }
  assert (R1 : children (reap (Z.pos (next_pid w))
                 (add_child (Z.pos (next_pid w1)) o2 (add_child (Z.pos (next_pid w)) o1 p)))
               = (Z.pos (next_pid w1), o2) :: children p).
  { unfold add_child, reap; cbn [children List.filter fst].
    rewrite Z.eqb_refl, N. cbn [negb]. rewrite (filter_below _ (Z.pos (next_pid w))) by (auto; lia).
    reflexivity. }
  destruct (os_wait_ok sys w2 (Z.pos (next_pid w1))) eqn:W2;
    [|rewrite (bind_wait_fail _ _ _ _ _ H2 W2); exact R1].
  rewrite (bind_wait_ok _ _ _ _ _ H2 W2). simpl (fst _). step_if.
  unfold reap at 1. cbn [children snd fst ret]. rewrite R1. cbn [List.filter fst].
  rewrite Z.eqb_refl. cbn [negb]. apply (filter_below _ (Z.pos (next_pid w))); [exact Hc | lia].
Qed.

(** *** [cd] without argument, [cd ~] and [cd -] *)



(** *** Standard input of an external command *)



(** *** Assignments and the exec of an external command *)

(** X1: a leaf [NAME=value] (a verb whose second fragment is [=]) whose
    NAME is not [cd], [exit] or [quit] (those are taken as builtins first,
    lines 65 and 87) runs in the shell itself: it sets NAME to the
    resolved value in the shell's environment and returns 0, forks
    nothing and leaves the world as it was; a NAME that setenv refuses
    (empty, or containing [=]) gives -1 and changes nothing.  In a
    sequence [NAME=value; cmd], [cmd] is evaluated from the shell with
    NAME bound, and the sequence evaluates to 0 whatever [cmd] returns
    (as [0 & rc = 0]) unless [cmd] ends the process; after a refused
    assignment it evaluates to [cmd]'s status ([-1 & rc = rc]). *)
Theorem assignment_sets_variable (s : simple_command_t) (verb n : word_t)
    (sc : option simple_command_t) (c2 : option command_t) (p : proc) (w : world) :
  s_verb s = Some verb -> w_next_part verb = Some n -> String.eqb (w_string n) "=" = true ->
  String.eqb (w_string verb) "cd" = false ->
  String.eqb (w_string verb) "exit" = false ->
  String.eqb (w_string verb) "quit" = false ->
  let name := w_string verb in
  let ok := negb (String.eqb name EmptyString ||
                  match String.index 0 "=" name with Some _ => true | None => false end) in
  let p1 := if ok then set_env (<[name := get_word_opt (env p) (w_next_part n)]> (env p)) p else p in
  parse_simple sys (Some s) p w = (Ret (if ok then 0 else -1), p1, w) /\
  parse_command_t sys (mk_command OP_SEQUENTIAL sc (Some (mk_command OP_NONE (Some s) None None)) c2) p w =
  match parse_command sys c2 p1 w with
  | (Ret r2, p2, w2) => (Ret (if ok then 0 else r2), p2, w2)
  | (Term o, p2, w2) => (Term o, p2, w2)
  end.
Proof.
  intros Hv Hn He Hcd Hex Hq name ok p1.
  assert (E : parse_simple sys (Some s) p w = (Ret (if ok then 0 else -1), p1, w)).
  { unfold parse_simple. rewrite Hv, Hcd, Hex, Hq, Hn, He. cbn [orb].
    rewrite bind_cur_env. unfold setenv, p1, ok, name.
    destruct (_ || _); reflexivity. }
  split; [exact E|].
  rewrite sequential_eq.
  change (parse_command sys (Some (mk_command OP_NONE (Some s) None None)) p w)
    with (parse_simple sys (Some s) p w).
  rewrite E. destruct (parse_command sys c2 p1 w) as [[[r2|o] p2] w2]; [|reflexivity].
  destruct ok; [rewrite Z.land_0_l | rewrite Z.land_m1_l]; reflexivity.
Qed.

Lemma keeps_cur_env : keeps_cwd_env cur_env.
Proof. intros p w. cbn. auto. Qed.

Lemma keeps_child_redirections s : keeps_cwd_env (child_redirections s).
Proof.
  unfold child_redirections.
  repeat ((apply keeps_bind; [|intros ?]) ||
          match goal with
          | |- keeps_cwd_env (match ?x with _ => _ end) => destruct x
          | |- keeps_cwd_env (if ?x then _ else _) => destruct x
          end);
  auto using keeps_ret, keeps_open, keeps_close, keeps_dup2, keeps_cur_env.
Qed.

(** X3: the child of an external command executes the program named by
    the first fragment of the verb as written ([s->verb->string], never
    expanded), with the argument vector resolved from the shell's
    environment; the exec is recorded with the child's pid. *)
Theorem external_exec_program (s : simple_command_t) (verb : word_t) (p : proc) (w : world) :
  s_verb s = Some verb ->
  String.eqb (w_string verb) "cd" = false ->
  String.eqb (w_string verb) "exit" = false ->
  String.eqb (w_string verb) "quit" = false ->
  match w_next_part verb with Some n => String.eqb (w_string n) "=" = false | None => True end ->
  os_fork_ok sys w = true ->
  (forall w' p' argv, os_exec sys w' p' (w_string verb) argv <> None) ->
  exists tbl, In (EExec (Zpos (next_pid w)) (w_string verb) (get_argv (env p) verb (s_params s)) tbl)
                 (trace (snd (parse_simple sys (Some s) p w))).
Proof.
  intros Hv Hcd Hex Hq Has Hf Hx.
  set (c0 := mk_proc (Z.pos (next_pid w)) (cwd p) (env p) (fds p) []).
  set (w0' := log (EFork (pid p) (Z.pos (next_pid w)))
                (mk_world (dirs w) (files w) (next_id w) (Pos.succ (next_pid w)) (trace w))).
  pose proof (keeps_child_redirections s c0 w0') as K.
  destruct (no_term_child_redirections s c0 w0') as (a & c1 & w1 & E & P).
  rewrite E in K. destruct K as (_ & En & _).
  destruct (os_exec sys w1 c1 (w_string verb) (get_argv (env c1) verb (s_params s))) as [o|] eqn:X;
    [|exfalso; exact (Hx _ _ _ X)].
  assert (S : spawn (exec_child sys s verb) p w =
              (Z.pos (next_pid w), o,
               log (EExec (pid c1) (w_string verb) (get_argv (env c1) verb (s_params s)) (fds c1)) w1)).
  { unfold spawn. fold c0 w0'. unfold exec_child. rewrite bind_unfold, E. cbn beta iota.
    rewrite bind_cur_env. unfold bind at 1, sys_execvp. rewrite X. reflexivity. }
  exists (fds c1).
  unfold parse_simple. rewrite Hv, Hcd, Hex, Hq. cbn [orb].
  assert (Ha : match w_next_part verb with
               | Some n => if (w_string n =? "=")%string then Some n else None
               | None => None end = None)
    by (destruct (w_next_part verb); [rewrite Has|]; reflexivity).
  rewrite Ha, (bind_fork_ok _ _ _ _ _ _ _ Hf S). step_if.
  rewrite bind_unfold. unfold sys_waitpid.
  destruct (find _ _) as [[? ?]|]; [destruct (os_wait_ok _ _ _)|]; cbn -[get_argv];
    try (destruct (WIFEXITED _));
    rewrite P, En; cbn -[get_argv]; apply in_or_app; right; left; reflexivity.
Qed.

End Proofs.

(** ** Instances and counterexamples *)

(** C9 at the unknown command [nope]. *)
Lemma unloadable_command_fails_witness :
  let '(r, _, w') := parse_simple os_demo (Some (simple "nope" [])) p0 w0 in
  (exists st, r = Ret st /\ st <> 0) /\
  exists l d, trace w' =
    l ++ [EWrite (Z.pos (next_pid w0)) d ("Execution failed for '" ++ w_string (lit "nope") ++ "'" ++ newline)%string;
          EExit (Z.pos (next_pid w0)) 1].
Proof.
  apply (unloadable_command_fails os_demo (simple "nope" []) (lit "nope") p0 w0);
    reflexivity.
Defined.

(** C1 at the command [false], which exits with 1. *)
Lemma external_leaf_raw_status_witness :
  (let '(cpid, o, w2) := spawn (exec_child os_demo (simple "false" []) (lit "false")) p0 w0 in
   fst (fst (parse_simple os_demo (Some (simple "false" [])) p0 w0)) =
   Ret (if os_fork_ok os_demo w0 then
          if os_wait_ok os_demo w2 cpid then
            if WIFEXITED (wait_status o) then wait_status o else 0
          else -1
        else -1)) /\
  wait_status (Exited 1) = 256 /\ WEXITSTATUS (wait_status (Exited 1)) = 1.
Proof.
  apply (external_leaf_raw_status os_demo (simple "false" []) (lit "false") p0 w0);
    reflexivity.
Defined.

(** C1: [false] exits with code 1, and its leaf evaluates to 256. *)
Lemma external_leaf_raw_status_counterexample :
  fst (fst (parse_command_t os_demo (leaf (simple "false" [])) p0 w0)) = Ret 256.
Proof. vm_compute. reflexivity. Qed.



(** C5: in [true | true] both forks and both waits of the runner succeed,
    but the leaf in the reader fails to wait for its own child and
    evaluates to -1, so the reader (pid 102) exits with 255; the node
    evaluates to 1, not to that status. *)
Lemma pipe_status_counterexample :
  let '(r, _, w') := parse_command_t os_wait_103_fails pipe_true_true p0 w0 in
  r = Ret 1 /\ In (EExit 102 255) (trace w') /\
  fst (fst (parse_command_t os_wait_103_fails (leaf (simple "true" []))
              (mk_proc 102 "/" (env p0) std_fds [])
              (mk_world (dirs w0) (files w0) 0 103 []))) = Ret (-1).
Proof. vm_compute. split; [reflexivity|]. split; [tauto|reflexivity]. Qed.



(** C8 at [exit]. *)
Lemma exit_ends_current_process_witness :
  parse_simple os_demo (Some (simple "exit" [])) p0 w0 = (Term (Exited 0), p0, log (EExit (pid p0) 0) w0) /\
  (forall op sc c1 c2 p1 w1 o p2 w2,
     In op [OP_SEQUENTIAL; OP_CONDITIONAL_NZERO; OP_CONDITIONAL_ZERO] ->
     parse_command os_demo c1 p1 w1 = (Term o, p2, w2) ->
     parse_command_t os_demo (mk_command op sc c1 c2) p1 w1 = (Term o, p2, w2)) /\
  (forall op sc c1 c2 sc' c3 p1 w1,
     In op [OP_PARALLEL; OP_PIPE] ->
     exists v p2 w2, parse_command_t os_demo (mk_command op sc c1 c2) p1 w1 = (Ret v, p2, w2) /\
                     pid p2 = pid p1 /\
     parse_command_t os_demo (mk_command OP_SEQUENTIAL sc' (Some (mk_command op sc c1 c2)) c3) p1 w1 =
     match parse_command os_demo c3 p2 w2 with
     | (Ret r3, p3, w3) => (Ret (Z.land v r3), p3, w3)
     | (Term o, p3, w3) => (Term o, p3, w3)
     end) /\
  (forall sc c1 c2 p1 w1 pid1 o1 wa pid2 o2 wb,
     os_fork_ok os_demo w1 = true ->
     spawn (parallel_child (parse_command os_demo c1)) p1 w1 = (pid1, o1, wa) ->
     os_fork_ok os_demo wa = true ->
     spawn (parallel_child (parse_command os_demo c2)) p1 wa = (pid2, o2, wb) ->
     exists v p2, parse_command_t os_demo (mk_command OP_PARALLEL sc c1 c2) p1 w1 = (Ret v, p2, wb) /\
                  pid p2 = pid p1) /\
  (forall sc c1 c2 p1 w1 pid1 o1 wa pid2 o2 wb,
     os_pipe_ok os_demo w1 = true ->
     let i := next_id w1 in
     let r := lowest_free (fds p1) in
     let wr := lowest_free (<[r := OPipeR i]> (fds p1)) in
     let pp := set_fds (<[wr := OPipeW i]> (<[r := OPipeR i]> (fds p1))) p1 in
     let wp := mk_world (dirs w1) (files w1) (S i) (next_pid w1) (trace w1) in
     os_fork_ok os_demo wp = true ->
     spawn (pipe_writer r wr (parse_command os_demo c1)) pp wp = (pid1, o1, wa) ->
     os_fork_ok os_demo wa = true ->
     spawn (pipe_reader r (parse_command os_demo c2)) (set_fds (<[r := OPipeR i]> (fds p1)) p1) wa =
       (pid2, o2, wb) ->
     exists v p2, parse_command_t os_demo (mk_command OP_PIPE sc c1 c2) p1 w1 = (Ret v, p2, wb) /\
                  pid p2 = pid p1).
Proof.
  apply (exit_ends_current_process os_demo (simple "exit" []) (lit "exit") p0 w0);
    reflexivity.
Defined.

(** C8: in [(exit & true); true] the sibling of [exit] (pid 102) and the
    command after the PARALLEL node (pid 103) both run [true]. *)
Lemma exit_in_parallel_counterexample :
  let '(r, _, w') := parse_command_t os_demo exit_in_parallel p0 w0 in
  r = Ret 0 /\ execs (trace w') = [(102, "true"); (103, "true")].
Proof. vm_compute. split; reflexivity. Qed.



(** X2 at [true > f 2> f]: the redirections stay in the child. *)
Lemma external_leaf_keeps_shell_witness :
  let p' := snd (fst (parse_simple os_demo (Some true_merged) p0 w0)) in
  cwd p' = cwd p0 /\ env p' = env p0 /\ fds p' = fds p0.
Proof.
  apply (external_leaf_keeps_shell os_demo true_merged (lit "true") p0 w0);
    try reflexivity; exact I.
Defined.

(** X10 at the pipe created from [p0]: descriptors 3 (read) and 4 (write). *)
Lemma pipe_children_tables_witness :
  (forall (m : M Z) q v, fds q = fds (snd (fst (sys_pipe os_demo p0 w0))) ->
     pipe_writer 3 4 m q v =
     bind m (fun rc => sys_exit rc)
       (set_fds (<[STDOUT_FILENO := OPipeW (next_id w0)]> (fds p0)) q) v) /\
  (forall (m : M Z) q v, fds q = delete 4 (fds (snd (fst (sys_pipe os_demo p0 w0)))) ->
     pipe_reader 3 m q v =
     bind m (fun rc => sys_exit rc)
       (set_fds (<[STDIN_FILENO := OPipeR (next_id w0)]> (fds p0)) q) v).
Proof.
  apply (pipe_children_tables os_demo p0 w0 3 4 (snd (fst (sys_pipe os_demo p0 w0)))
           (snd (sys_pipe os_demo p0 w0)));
    [vm_compute; reflexivity | eexists; reflexivity | eexists; reflexivity].
Defined.

(** X8 at [true & false] from a shell without children. *)
Lemma parallel_children_left_witness :
  let c1 := Some (leaf (simple "true" [])) in
  let c2 := Some (leaf (simple "false" [])) in
  let '(pid1, o1, w1) := spawn (parallel_child (parse_command os_demo c1)) p0 w0 in
  let '(pid2, o2, w2) := spawn (parallel_child (parse_command os_demo c2)) p0 w1 in
  children (snd (fst (run_in_parallel os_demo (parse_command os_demo c1) (parse_command os_demo c2) p0 w0))) =
  if os_fork_ok os_demo w0 then
    if os_fork_ok os_demo w1 then
      if os_wait_ok os_demo w2 pid1 then
        if os_wait_ok os_demo w2 pid2 then children p0 else (pid2, o2) :: children p0
      else (pid2, o2) :: (pid1, o1) :: children p0
    else (pid1, o1) :: children p0
  else children p0.
Proof.
  apply (parallel_children_left os_demo (Some (leaf (simple "true" [])))
           (Some (leaf (simple "false" []))) p0 w0).
  constructor.
Defined.




(** X1 at [X=v; false]: the sequence evaluates to 0 although [false]
    gives 256. *)
Lemma assignment_sets_variable_witness :
  let s := mk_simple (Some assign_x) [] None None None 0 in
  let name := w_string assign_x in
  let ok := negb (String.eqb name EmptyString ||
                  match String.index 0 "=" name with Some _ => true | None => false end) in
  let p1 := if ok then set_env (<[name := get_word_opt (env p0) (Some (lit "v"))]> (env p0)) p0 else p0 in
  parse_simple os_demo (Some s) p0 w0 = (Ret (if ok then 0 else -1), p1, w0) /\
  parse_command_t os_demo (mk_command OP_SEQUENTIAL None (Some (mk_command OP_NONE (Some s) None None))
                             (Some (leaf (simple "false" [])))) p0 w0 =
  match parse_command os_demo (Some (leaf (simple "false" []))) p1 w0 with
  | (Ret r2, p2, w2) => (Ret (if ok then 0 else r2), p2, w2)
  | (Term o, p2, w2) => (Term o, p2, w2)
  end.
Proof.
  apply (assignment_sets_variable os_demo (mk_simple (Some assign_x) [] None None None 0)
           assign_x (mk_word "=" false (Some (lit "v"))) None (Some (leaf (simple "false" [])))
           p0 w0); reflexivity.
Defined.

(** X3 at [true]. *)
Lemma external_exec_program_witness :
  exists tbl, In (EExec (Zpos (next_pid w0)) "true" (get_argv (env p0) (lit "true") []) tbl)
                 (trace (snd (parse_simple os_demo (Some (simple "true" [])) p0 w0))).
Proof.
  apply (external_exec_program os_demo (simple "true" []) (lit "true") p0 w0);
    first [reflexivity | exact I | intros w' p' argv; discriminate].
Defined.
